(** * SimFleet: the directory (service registry) and the simulator
      (lifecycle controller), embedded from

      - [taxi_simulator/directory.py]  (module [Directory] below)
      - [taxi_simulator/simulator.py]  (module [Simulator] below)

    Python objects are modelled by the data they carry.  Code that can raise
    returns a [result]; code that threads the agent's state does so through a
    small state-and-exception monad. *)

From Stdlib Require Import ZArith Lia.
From stdpp Require Import base gmap list strings pretty.

(** ** Python exceptions and fallible results *)

(** The [Exception] subclasses the embedded code can meet.  [TransportError]
    stands for whatever the messaging substrate raises when a send fails. *)
Inductive exn :=
| KeyError | TypeError | IndexError | JSONDecodeError
| StopIteration | RuntimeError | TransportError.

Inductive result (A : Type) :=
| Ok (a : A)
| Err (e : exn).
Arguments Ok {A} a.
Arguments Err {A} e.

Definition rbind {A B} (r : result A) (k : A -> result B) : result B :=
  match r with Ok a => k a | Err e => Err e end.

(** ** Python values as far as JSON produces them

    [json.loads] yields [None], booleans, numbers, strings, lists and dicts.
    Numbers are restricted to integers here. *)
#[local] Unset Elimination Schemes.
Inductive json :=
| JNull
| JBool (b : bool)
| JInt (z : Z)
| JStr (s : string)
| JArr (l : list json)
| JObj (fields : list (string * json)).
#[local] Set Elimination Schemes.

(** Keys of a Python [dict]: the hashable values.  [True] and [1] (and
    [False] and [0]) are the same key, as in Python. *)
Inductive pykey :=
| KNone
| KInt (z : Z)
| KStr (s : string).

#[global] Instance pykey_eq_dec : EqDecision pykey.
Proof. solve_decision. Defined.

#[global] Instance pykey_countable : Countable pykey.
Proof.
  refine (inj_countable'
    (fun k => match k with
              | KNone => inl tt
              | KInt z => inr (inl z)
              | KStr s => inr (inr s)
              end)
    (fun x => match x with
              | inl _ => KNone
              | inr (inl z) => KInt z
              | inr (inr s) => KStr s
              end) _).
  intros []; reflexivity.
Defined.

(** [hash(v)]: lists and dicts are unhashable. *)
Definition hash_key (v : json) : result pykey :=
  match v with
  | JNull => Ok KNone
  | JBool b => Ok (KInt (if b then 1 else 0))
  | JInt z => Ok (KInt z)
  | JStr s => Ok (KStr s)
  | JArr _ | JObj _ => Err TypeError
  end.

Fixpoint assoc (k : string) (fields : list (string * json)) : option json :=
  match fields with
  | [] => None
  | (k', v) :: rest => if decide (k = k') then Some v else assoc k rest
  end.

(** [v[k]] for a string subscript [k]: only a dict accepts it. *)
Definition getitem (v : json) (k : string) : result json :=
  match v with
  | JObj fields =>
      match assoc k fields with
      | Some x => Ok x
      | None => Err KeyError
      end
  | _ => Err TypeError
  end.

(** [del l[i]] for an integer [i]; a negative index counts from the end. *)
Definition del_index {A} (i : Z) (l : list A) : result (list A) :=
  let n := Z.of_nat (length l) in
  let j := (if i <? 0 then i + n else i)%Z in
  if ((0 <=? j) && (j <? n))%Z
  then Ok (delete (Z.to_nat j) l)
  else Err IndexError.

(** [del l[x]] for an arbitrary subscript [x] of a list [l]. *)
Definition list_delitem {A} (x : json) (l : list A) : result (list A) :=
  match x with
  | JInt i => del_index i l
  | JBool b => del_index (if b then 1 else 0) l
  | _ => Err TypeError
  end.

(** * The directory agent *)
Module Directory.

(** A SPADE message, as far as the directory reads and writes it. *)
Record Message := mkMessage {
  sender : string;
  to : string;
  protocol : option string;
  performative : option string;
  body : option string;
}.

(** The sender of a message the directory builds: left unset, the substrate
    fills it in. *)
Definition unset : string := EmptyString.

(** The agent's knowledge base entry [service_agents]: service type to the
    list of identities registered under it. *)
Abbreviation registry := (gmap pykey (list json)).

(** The state of the directory agent: its registry, and the messages its
    behaviours have handed to the messaging substrate, oldest first. *)
Record DirectoryAgent := mkDirectory {
  service_agents : registry;
  outbox : list Message;
}.

(** [DirectoryAgent.__init__] *)
Definition init : DirectoryAgent :=
  {| service_agents := ∅; outbox := [] |}.

(** Behaviour code: a state transformer that returns or raises. *)
Definition beh (A : Type) : Type := DirectoryAgent -> DirectoryAgent * result A.

Definition ret {A} (a : A) : beh A := fun d => (d, Ok a).
Definition raise {A} (e : exn) : beh A := fun d => (d, Err e).
Definition bind {A B} (m : beh A) (k : A -> beh B) : beh B :=
  fun d => match m d with
           | (d', Ok a) => k a d'
           | (d', Err e) => (d', Err e)
           end.
Definition lift {A} (r : result A) : beh A := fun d => (d, r).
Definition get_services : beh registry := fun d => (d, Ok (service_agents d)).
Definition set_services (r : registry) : beh unit :=
  fun d => ({| service_agents := r; outbox := outbox d |}, Ok tt).

(** [try: body except Exception as e: handler(e)] *)
Definition try_except {A} (m : beh A) (handler : exn -> beh A) : beh A :=
  fun d => match m d with
           | (d', Ok a) => (d', Ok a)
           | (d', Err e) => handler e d'
           end.

Declare Scope beh_scope.
Delimit Scope beh_scope with beh.
Notation "x <- m ;; k" := (bind m (fun x => k))
  (at level 100, m at next level, right associativity) : beh_scope.
Notation "m ;;; k" := (bind m (fun _ => k))
  (at level 100, right associativity) : beh_scope.

Section Behaviours.

(** What the code takes from outside this file: the [json] module, the
    messaging substrate, and the constants of [protocol.py]. *)
Variable json_loads : string -> result json.
Variable json_dumps : json -> string.
Variable transport_send : Message -> result unit.
Variables REQUEST_PROTOCOL REGISTER_PROTOCOL : string.
Variables INFORM_PERFORMATIVE ACCEPT_PERFORMATIVE : string.
Variables CANCEL_PERFORMATIVE REQUEST_PERFORMATIVE : string.

(** [await self.send(reply)]: hands [m] to the substrate, which may raise. *)
Definition send (m : Message) : beh unit :=
  fun d => ({| service_agents := service_agents d; outbox := outbox d ++ [m] |},
            transport_send m).

(** [RegistrationBehaviour.add_service]. Each branch reads the [jid] entry
    of [agent] before it touches the store. *)
Definition add_service (agent : json) : beh unit :=
  (service <- get_services ;;
   ty <- lift (getitem agent "type") ;;
   k <- lift (hash_key ty) ;;
   match service !! k with
   | Some l =>
       jid <- lift (getitem agent "jid") ;;
       set_services (<[k := l ++ [jid]]> service)
   | None =>
       jid <- lift (getitem agent "jid") ;;
       set_services (<[k := [jid]]> service)
   end)%beh.

(** [RegistrationBehaviour.remove_service]: one [del] statement on the
    list stored under [type], subscripted by [agent]. *)
Definition remove_service (type : pykey) (agent : json) : beh unit :=
  (service <- get_services ;;
   match service !! type with
   | None => raise KeyError
   | Some l =>
       l' <- lift (list_delitem agent l) ;;
       set_services (<[type := l']> service)
   end)%beh.

(** [RegistrationBehaviour.send_confirmation] *)
Definition send_confirmation (agent_id : string) : beh unit :=
  send {| sender := unset; to := agent_id;
          protocol := Some REGISTER_PROTOCOL;
          performative := Some ACCEPT_PERFORMATIVE;
          body := None |}.

(** [json.loads(msg.body)]: a message without body has [body = None]. *)
Definition loads_body (b : option string) : result json :=
  match b with
  | Some s => json_loads s
  | None => Err TypeError
  end.

(** [RegistrationBehaviour.run]; [msg] is what [self.receive(timeout=5)]
    returned, [None] on timeout. The handler only logs. *)
Definition RegistrationBehaviour_run (msg : option Message) : beh unit :=
  try_except
    (match msg with
     | Some m =>
         let agent_id := sender m in
         if decide (performative m = Some REQUEST_PERFORMATIVE) then
           (content <- lift (loads_body (body m)) ;;
            add_service content ;;;
            send_confirmation agent_id)%beh
         else ret tt
     | None => ret tt
     end)
    (fun _ => ret tt).

(** The dict key a message body is looked up under. *)
Definition body_key (b : option string) : pykey :=
  match b with
  | Some s => KStr s
  | None => KNone
  end.

(** [DirectoryStrategyBehaviour.send_services] *)
Definition send_services (agent_id : string) (type_service : option string)
  : beh unit :=
  (service <- get_services ;;
   match service !! body_key type_service with
   | Some l =>
       send {| sender := unset; to := agent_id;
               protocol := Some REQUEST_PROTOCOL;
               performative := Some INFORM_PERFORMATIVE;
               body := Some (json_dumps (JArr l)) |}
   | None => raise KeyError
   end)%beh.

(** [DirectoryStrategyBehaviour.send_negative] *)
Definition send_negative (agent_id : string) : beh unit :=
  send {| sender := unset; to := agent_id;
          protocol := Some REQUEST_PROTOCOL;
          performative := Some CANCEL_PERFORMATIVE;
          body := None |}.

(** [DirectoryStrategyBehaviour.run]: no exception handler here. *)
Definition DirectoryStrategyBehaviour_run (msg : option Message) : beh unit :=
  match msg with
  | Some m =>
      let agent_id := sender m in
      let request := body m in
      if decide (performative m = Some REQUEST_PERFORMATIVE) then
        (service <- get_services ;;
         if decide (is_Some (service !! body_key request))
         then send_services agent_id (body m)
         else send_negative agent_id)%beh
      else ret tt
  | None => ret tt
  end.

(** ** Vocabulary of the statements below *)

(** The decoded payload of a registration request for [jid] under [type]. *)
Definition registration (type jid : string) : json :=
  JObj [("type", JStr type); ("jid", JStr jid)].

(** The directory after the registrations [ops], oldest first; the outcome
    of each [add_service] is dropped, as [RegistrationBehaviour.run] does. *)
Definition register_all (ops : list (string * string)) (d : DirectoryAgent)
  : DirectoryAgent :=
  fold_left (fun d op => fst (add_service (registration (fst op) (snd op)) d))
    ops d.

(** The identities [ops] registers under [type], in order of registration,
    repeated as often as they were registered. *)
Definition registered (ops : list (string * string)) (type : string)
  : list json :=
  omap (fun op => if decide (fst op = type) then Some (JStr (snd op)) else None)
    ops.

(** A lookup request for [type] sent by [agent_id]. *)
Definition lookup_request (agent_id type : string) : Message :=
  {| sender := agent_id; to := unset;
     protocol := Some REQUEST_PROTOCOL;
     performative := Some REQUEST_PERFORMATIVE;
     body := Some type |}.

(** The two replies to a lookup: the list of identities, or a refusal. *)
Definition services_reply (agent_id : string) (ids : list json) : Message :=
  {| sender := unset; to := agent_id;
     protocol := Some REQUEST_PROTOCOL;
     performative := Some INFORM_PERFORMATIVE;
     body := Some (json_dumps (JArr ids)) |}.

Definition negative_reply (agent_id : string) : Message :=
  {| sender := unset; to := agent_id;
     protocol := Some REQUEST_PROTOCOL;
     performative := Some CANCEL_PERFORMATIVE;
     body := None |}.

(** The message [send_confirmation] builds for [agent_id]. *)
Definition confirmation (agent_id : string) : Message :=
  {| sender := unset; to := agent_id;
     protocol := Some REGISTER_PROTOCOL;
     performative := Some ACCEPT_PERFORMATIVE;
     body := None |}.

(** The registration behaviour run once on each of [msgs], oldest first;
    an entry of [msgs] is what one call of [receive] returned. *)
Definition registration_loop (msgs : list (option Message))
  (d : DirectoryAgent) : DirectoryAgent :=
  fold_left (fun d msg => fst (RegistrationBehaviour_run msg d)) msgs d.

End Behaviours.

(** A substrate that accepts every message. *)
Definition connected : Message -> result unit :=
  fun _ => Ok tt.

(** A decoder stand-in for examples: every body decodes to the
    registration of [m1@host] under [taxi]. *)
Definition taxi_decoder : string -> result json :=
  fun _ => Ok (JObj [("type", JStr "taxi"); ("jid", JStr "m1@host")]).

(** A substrate whose connection is down: every send raises. *)
Definition disconnected : Message -> result unit :=
  fun _ => Err TransportError.

(** A decoder that rejects every body. *)
Definition undecodable : string -> result json :=
  fun _ => Err JSONDecodeError.

(** A serializer stand-in for examples: it ignores its argument. *)
Definition opaque_dumps : json -> string :=
  fun _ => "[...]".

End Directory.

(** * The simulator agent *)
Module Simulator.

(** ** Agents and the collections that hold them *)

(** A participant agent, as far as the simulator reads and writes it.  The
    simulator never copies an agent and keeps each one under one key of one
    collection, so a collection holds its agents by value.  The last three
    fields are what [CustomerAgent.get_waiting_time], [total_time] and
    [is_in_destination] answer. *)
Record Agent := mkAgent {
  name : string;
  jid : string;
  stopped : bool;
  strategies : list string;
  waiting_time : Z;
  total_time : option Z;
  in_destination : bool;
}.

(** [agent.stopped = True] *)
Definition set_stopped (a : Agent) : Agent :=
  {| name := name a; jid := jid a; stopped := true;
     strategies := strategies a; waiting_time := waiting_time a;
     total_time := total_time a; in_destination := in_destination a |}.

(** [agent.add_strategy(strategy)]: the agent records the injected policy. *)
Definition add_strategy (strategy : string) (a : Agent) : Agent :=
  {| name := name a; jid := jid a; stopped := stopped a;
     strategies := strategies a ++ [strategy];
     waiting_time := waiting_time a;
     total_time := total_time a; in_destination := in_destination a |}.

(** [agent.stop()] belongs to SPADE; it changes none of the fields above. *)
Definition agent_stop (a : Agent) : Agent := a.

(** A Python [dict] from agent names to agents, in insertion order. *)
Abbreviation dict := (list (string * Agent)).

(** [d[k] = v]: an existing key keeps its place, a new one goes last. *)
Fixpoint dict_set (k : string) (v : Agent) (d : dict) : dict :=
  match d with
  | [] => [(k, v)]
  | (k', v') :: rest =>
      if decide (k = k') then (k', v) :: rest
      else (k', v') :: dict_set k v rest
  end.

(** [d.values()] *)
Definition values (d : dict) : list Agent := map snd d.

(** [{jid: agent for jid, agent in d.items() if not agent.stopped}] *)
Definition not_stopped (d : dict) : dict :=
  List.filter (fun item => negb (stopped (snd item))) d.

(** Applies [f] to every agent of [d] in place. *)
Definition for_each (f : Agent -> Agent) (d : dict) : dict :=
  map (fun item => (fst item, f (snd item))) d.

(** ** Dict objects

    The three collections are dict objects.  [add_manager] and its siblings
    mutate the object a name is bound to, [clear_agents] and
    [clear_stopped_agents] bind the name to a new object, and the manager
    generator keeps reading the object it started on.  Dict objects
    therefore live in a heap and are named by their location. *)
Abbreviation loc := nat.

Definition deref (h : gmap loc dict) (l : loc) : dict := default [] (h !! l).

(** ** The manager generator *)

(** The generator object [managers_generator()] returns, wrapping
    [itertools.cycle] over a values view:
    - [GenCreated]: the body has not started, nothing has been read;
    - [GenFirstPass src used pos saved]: [cycle] is on its first pass over
      the dict object at [src], which had [used] entries when the pass
      began; [pos] entries have been yielded and kept in [saved];
    - [GenCycling saved idx]: the dict is exhausted, [cycle] replays [saved]
      and will yield its entry [idx] next;
    - [GenFinished]: the body has returned or raised. *)
Inductive generator :=
| GenCreated
| GenFirstPass (src : loc) (used : nat) (pos : nat) (saved : list Agent)
| GenCycling (saved : list Agent) (idx : nat)
| GenFinished.

(** [cycle]'s replay index after entry [idx]: back to 0 past the end. *)
Definition advance (saved : list Agent) (idx : nat) : nat :=
  if (length saved <=? S idx)%nat then 0%nat else S idx.

(** One step of [cycle]'s first pass.  The dict iterator raises when the
    dict changed size under it; at the end of the dict, [cycle] stops if it
    saved nothing and otherwise starts replaying. *)
Definition first_pass (h : gmap loc dict) (src : loc) (used pos : nat)
  (saved : list Agent) : generator * result string :=
  let d := deref h src in
  if negb (length d =? used)%nat then (GenFinished, Err RuntimeError)
  else
    match d !! pos with
    | Some (_, manager) =>
        (GenFirstPass src used (S pos) (saved ++ [manager]),
         Ok (jid manager))
    | None =>
        match saved with
        | [] => (GenFinished, Err StopIteration)
        | manager :: _ =>
            (GenCycling saved (advance saved 0), Ok (jid manager))
        end
    end.

(** [next(g)] for the generator [g], with [cur] the dict object the name
    [manager_agents] is bound to when the call is made. *)
Definition gen_next (h : gmap loc dict) (cur : loc) (g : generator)
  : generator * result string :=
  match g with
  | GenCreated => first_pass h cur (length (deref h cur)) 0 []
  | GenFirstPass src used pos saved => first_pass h src used pos saved
  | GenCycling saved idx =>
      match saved !! idx with
      | Some manager =>
          (GenCycling saved (advance saved idx), Ok (jid manager))
      | None => (GenFinished, Err StopIteration)
      end
  | GenFinished => (GenFinished, Err StopIteration)
  end.

(** ** The simulator's state *)

Record SimulatorAgent := mkSimulator {
  heap : gmap loc dict;
  next_loc : loc;
  manager_agents_ref : loc;
  transport_agents_ref : loc;
  customer_agents_ref : loc;
  simulation_running : bool;
  simulation_time : option Z;
  simulation_init_time : option Z;
  kill_simulator : bool;
  manager_generator : option generator;
  fleetmanager_strategy : string;
  transport_strategy : string;
  customer_strategy : string;
  max_time : option Z;
}.

(** The properties [manager_agents], [transport_agents], [customer_agents] *)
Definition manager_agents (s : SimulatorAgent) : dict :=
  deref (heap s) (manager_agents_ref s).
Definition transport_agents (s : SimulatorAgent) : dict :=
  deref (heap s) (transport_agents_ref s).
Definition customer_agents (s : SimulatorAgent) : dict :=
  deref (heap s) (customer_agents_ref s).

(** Field updates *)
Definition with_heap (h : gmap loc dict) (n : loc) (s : SimulatorAgent) :=
  {| heap := h; next_loc := n;
     manager_agents_ref := manager_agents_ref s;
     transport_agents_ref := transport_agents_ref s;
     customer_agents_ref := customer_agents_ref s;
     simulation_running := simulation_running s;
     simulation_time := simulation_time s;
     simulation_init_time := simulation_init_time s;
     kill_simulator := kill_simulator s;
     manager_generator := manager_generator s;
     fleetmanager_strategy := fleetmanager_strategy s;
     transport_strategy := transport_strategy s;
     customer_strategy := customer_strategy s;
     max_time := max_time s |}.

Definition with_refs (m t c : loc) (s : SimulatorAgent) :=
  {| heap := heap s; next_loc := next_loc s;
     manager_agents_ref := m;
     transport_agents_ref := t;
     customer_agents_ref := c;
     simulation_running := simulation_running s;
     simulation_time := simulation_time s;
     simulation_init_time := simulation_init_time s;
     kill_simulator := kill_simulator s;
     manager_generator := manager_generator s;
     fleetmanager_strategy := fleetmanager_strategy s;
     transport_strategy := transport_strategy s;
     customer_strategy := customer_strategy s;
     max_time := max_time s |}.

Definition with_flags (running kill : bool) (s : SimulatorAgent) :=
  {| heap := heap s; next_loc := next_loc s;
     manager_agents_ref := manager_agents_ref s;
     transport_agents_ref := transport_agents_ref s;
     customer_agents_ref := customer_agents_ref s;
     simulation_running := running;
     simulation_time := simulation_time s;
     simulation_init_time := simulation_init_time s;
     kill_simulator := kill;
     manager_generator := manager_generator s;
     fleetmanager_strategy := fleetmanager_strategy s;
     transport_strategy := transport_strategy s;
     customer_strategy := customer_strategy s;
     max_time := max_time s |}.

Definition with_clock (time init_time : option Z) (s : SimulatorAgent) :=
  {| heap := heap s; next_loc := next_loc s;
     manager_agents_ref := manager_agents_ref s;
     transport_agents_ref := transport_agents_ref s;
     customer_agents_ref := customer_agents_ref s;
     simulation_running := simulation_running s;
     simulation_time := time;
     simulation_init_time := init_time;
     kill_simulator := kill_simulator s;
     manager_generator := manager_generator s;
     fleetmanager_strategy := fleetmanager_strategy s;
     transport_strategy := transport_strategy s;
     customer_strategy := customer_strategy s;
     max_time := max_time s |}.

Definition with_generator (g : option generator) (s : SimulatorAgent) :=
  {| heap := heap s; next_loc := next_loc s;
     manager_agents_ref := manager_agents_ref s;
     transport_agents_ref := transport_agents_ref s;
     customer_agents_ref := customer_agents_ref s;
     simulation_running := simulation_running s;
     simulation_time := simulation_time s;
     simulation_init_time := simulation_init_time s;
     kill_simulator := kill_simulator s;
     manager_generator := g;
     fleetmanager_strategy := fleetmanager_strategy s;
     transport_strategy := transport_strategy s;
     customer_strategy := customer_strategy s;
     max_time := max_time s |}.

(** Overwrites the dict object at [l] (a mutation in place). *)
Definition store (l : loc) (d : dict) (s : SimulatorAgent) : SimulatorAgent :=
  with_heap (<[l := d]> (heap s)) (next_loc s) s.

(** Creates a new dict object holding [d] and returns its location. *)
Definition alloc (d : dict) (s : SimulatorAgent) : loc * SimulatorAgent :=
  (next_loc s, with_heap (<[next_loc s := d]> (heap s)) (S (next_loc s)) s).

(** [self.set("manager_agents", d)] and its siblings, [d] a new dict *)
Definition set_manager_agents (d : dict) (s : SimulatorAgent) :=
  let '(l, s) := alloc d s in
  with_refs l (transport_agents_ref s) (customer_agents_ref s) s.
Definition set_transport_agents (d : dict) (s : SimulatorAgent) :=
  let '(l, s) := alloc d s in
  with_refs (manager_agents_ref s) l (customer_agents_ref s) s.
Definition set_customer_agents (d : dict) (s : SimulatorAgent) :=
  let '(l, s) := alloc d s in
  with_refs (manager_agents_ref s) (transport_agents_ref s) l s.

(** Python truthiness of a clock field: [None] and [0] are false. *)
Definition truthy (t : option Z) : bool :=
  match t with
  | Some z => negb (z =? 0)%Z
  | None => false
  end.

(** ** Lifecycle operations *)

(** The simulator as [__init__] leaves it: [clear_agents()] is its last
    statement, the clock fields are [None], the kill event is clear. *)
Definition init (fleetmanager transport customer : string)
  (max_time : option Z) : SimulatorAgent :=
  {| heap := {[ 0%nat := []; 1%nat := []; 2%nat := [] ]};
     next_loc := 3;
     manager_agents_ref := 0;
     transport_agents_ref := 1;
     customer_agents_ref := 2;
     simulation_running := false;
     simulation_time := None;
     simulation_init_time := None;
     kill_simulator := false;
     manager_generator := Some GenCreated;
     fleetmanager_strategy := fleetmanager;
     transport_strategy := transport;
     customer_strategy := customer;
     max_time := max_time |}.

(** [clear_agents] *)
Definition clear_agents (s : SimulatorAgent) : SimulatorAgent :=
  let s := set_manager_agents [] s in
  let s := set_transport_agents [] s in
  let s := set_customer_agents [] s in
  with_clock None None s.

(** [clear_stopped_agents] *)
Definition clear_stopped_agents (s : SimulatorAgent) : SimulatorAgent :=
  let agents := manager_agents s in
  let s := set_manager_agents (not_stopped agents) s in
  let agents := transport_agents s in
  let s := set_transport_agents (not_stopped agents) s in
  let agents := customer_agents s in
  let s := set_customer_agents (not_stopped agents) s in
  with_clock None None s.

(** [add_manager], [add_transport], [add_customer] *)
Definition add_manager (agent : Agent) (s : SimulatorAgent) : SimulatorAgent :=
  store (manager_agents_ref s) (dict_set (name agent) agent (manager_agents s)) s.
Definition add_transport (agent : Agent) (s : SimulatorAgent) : SimulatorAgent :=
  store (transport_agents_ref s)
    (dict_set (name agent) agent (transport_agents s)) s.
Definition add_customer (agent : Agent) (s : SimulatorAgent) : SimulatorAgent :=
  store (customer_agents_ref s)
    (dict_set (name agent) agent (customer_agents s)) s.

(** [run]; [now] is what [time.time()] returns when the start is stamped. *)
Definition run (now : Z) (s : SimulatorAgent) : SimulatorAgent :=
  let s := clear_stopped_agents s in
  if negb (simulation_running s) then
    let s := with_flags (simulation_running s) false s in
    let s := store (manager_agents_ref s)
               (for_each (add_strategy (fleetmanager_strategy s))
                  (manager_agents s)) s in
    let s := store (transport_agents_ref s)
               (for_each (add_strategy (transport_strategy s))
                  (transport_agents s)) s in
    let s := store (customer_agents_ref s)
               (for_each (add_strategy (customer_strategy s))
                  (customer_agents s)) s in
    let s := with_flags true (kill_simulator s) s in
    with_clock (simulation_time s) (Some now) s
  else s.

(** [get_simulation_time]; the literal [0] of the first branch and a
    stored [None] are told apart. *)
Definition get_simulation_time (now : Z) (s : SimulatorAgent) : option Z :=
  if negb (truthy (simulation_init_time s)) then Some 0%Z
  else if simulation_running s
       then Some (now - default 0%Z (simulation_init_time s))%Z
       else simulation_time s.

(** [stop_agents]; [now] is read only where the code calls [time.time()].
    The loop over the managers is inside a string literal in the source. *)
Definition stop_agents (now : Z) (s : SimulatorAgent) : SimulatorAgent :=
  let s := with_flags (simulation_running s) true s in
  let s := with_flags false (kill_simulator s) s in
  let s :=
    if negb (truthy (simulation_time s)) then
      with_clock
        (if truthy (simulation_init_time s)
         then Some (now - default 0%Z (simulation_init_time s))%Z
         else Some 0%Z)
        (simulation_init_time s) s
    else s in
  let s := store (transport_agents_ref s)
             (for_each (fun agent => set_stopped (agent_stop agent))
                (transport_agents s)) s in
  let s := store (customer_agents_ref s)
             (for_each (fun agent => set_stopped (agent_stop agent))
                (customer_agents s)) s in
  s.

(** [stop]; [now] and [now'] are the two clock readings it may take.  The
    log line formats [simulation_time] with [.1f], which raises on [None].
    [print_stats] and [route_agent.stop] change nothing modelled here. *)
Definition stop (now now' : Z) (s : SimulatorAgent) : result SimulatorAgent :=
  let s := with_clock (get_simulation_time now s) (simulation_init_time s) s in
  match simulation_time s with
  | None => Err TypeError
  | Some _ => Ok (stop_agents now' s)
  end.

(** [manager_assignment]: the conditional assignment of [None] changes
    nothing, then a new generator object is bound.  Creating a generator
    runs none of its body; the function has no raising path. *)
Definition manager_assignment (s : SimulatorAgent) : result SimulatorAgent :=
  let s := if negb (bool_decide (is_Some (manager_generator s)))
           then with_generator None s else s in
  Ok (with_generator (Some GenCreated) s).

(** [next(self.manager_generator)], as [async_create_agent] calls it *)
Definition next_manager (s : SimulatorAgent)
  : SimulatorAgent * result string :=
  match manager_generator s with
  | None => (s, Err TypeError)
  | Some g =>
      let '(g', r) := gen_next (heap s) (manager_agents_ref s) g in
      (with_generator (Some g') s, r)
  end.

(** [n] successive calls of [next_manager], with their results in order *)
Fixpoint next_managers (n : nat) (s : SimulatorAgent)
  : SimulatorAgent * list (result string) :=
  match n with
  | O => (s, [])
  | S n' =>
      let '(s1, r) := next_manager s in
      let '(s2, rs) := next_managers n' s1 in
      (s2, r :: rs)
  end.

(** ** Batch creation *)

Inductive agent_class := FleetManagerAgent | TransportAgent | CustomerAgent.

(** A call of [create_agent] issued by a batch: the class asked for, and
    the number of the kill-flag check that let it through.  Name, password
    and position are drawn at random and not recorded. *)
Record creation := mkCreation {
  cls : agent_class;
  check : nat;
}.

(** The inner loop [for _ in range(iteration)] of [create_agents_batch].
    [kill c] is what the [c]-th call of [self.kill_simulator.is_set()]
    returns: the event is shared with other threads, which set and clear
    it.  [c] counts the checks made so far, [log] the creations issued.
    [break] leaves this loop only. *)
Fixpoint create_chunk (kill : nat -> bool) (k : agent_class)
  (iteration : nat) (c : nat) (log : list creation) : nat * list creation :=
  match iteration with
  | O => (c, log)
  | S rest =>
      if kill c then (S c, log)
      else create_chunk kill k rest (S c) (log ++ [mkCreation k c])
  end.

(** The outer loop [for iteration in iterations] *)
Fixpoint create_chunks (kill : nat -> bool) (k : agent_class)
  (iterations : list nat) (c : nat) (log : list creation)
  : nat * list creation :=
  match iterations with
  | [] => (c, log)
  | iteration :: rest =>
      let '(c', log') := create_chunk kill k iteration c log in
      create_chunks kill k rest c' log'
  end.

(** The chunk sizes: [[20] * (number // 20)] followed by [number % 20] *)
Definition batch_iterations (number : Z) : list nat :=
  let number := Z.max number 0 in
  replicate (Z.to_nat (number / 20)) 20%nat ++ [Z.to_nat (number mod 20)].

(** [create_agents_batch]: the number of checks made, and the calls of
    [create_agent] issued, in order. *)
Definition create_agents_batch (kill : nat -> bool) (k : agent_class)
  (number : Z) : nat * list creation :=
  create_chunks kill k (batch_iterations number) 0 [].

(** ** Statistics *)

Record stats := mkStats {
  waiting : string;
  totaltime : string;
  finished : bool;
  is_running : bool;
}.

(** [time_is_out]: comparing [None] with a number raises. *)
Definition time_is_out (now : Z) (s : SimulatorAgent) (max : Z) : result bool :=
  match get_simulation_time now s with
  | Some t => Ok (max <? t)%Z
  | None => Err TypeError
  end.

(** [is_simulation_finish] *)
Definition is_simulation_finish (s : SimulatorAgent) : bool :=
  if (0 <? length (customer_agents s))%nat
  then forallb in_destination (values (customer_agents s))
  else false.

(** [is_simulation_finished]; [or] evaluates [time_is_out()] first. *)
Definition is_simulation_finished (now : Z) (s : SimulatorAgent) : result bool :=
  match max_time s with
  | None => Ok false
  | Some max =>
      rbind (time_is_out now s max) (fun out =>
      Ok (out || is_simulation_finish s))
  end.

Section Stats.

(** [utils.avg] and the format [{0:.2f}], both defined outside this file *)
Variable avg : list Z -> Z.
Variable format_2f : Z -> string.

(** [get_stats] *)
Definition get_stats (now : Z) (s : SimulatorAgent) : result stats :=
  let '(waiting, total) :=
    if (0 <? length (customer_agents s))%nat then
      (avg (map waiting_time (values (customer_agents s))),
       avg (omap (fun customer =>
                    if truthy (total_time customer) then total_time customer
                    else None)
              (values (customer_agents s))))
    else (0%Z, 0%Z) in
  rbind (is_simulation_finished now s) (fun fin =>
  Ok {| waiting := format_2f waiting;
        totaltime := format_2f total;
        finished := fin;
        is_running := simulation_running s |}).

End Stats.

(** ** Invariants and reachable states *)

(** The three names are bound to three distinct dict objects, all of them
    allocated. *)
Definition wf (s : SimulatorAgent) : Prop :=
  manager_agents_ref s <> transport_agents_ref s /\
  manager_agents_ref s <> customer_agents_ref s /\
  transport_agents_ref s <> customer_agents_ref s /\
  (manager_agents_ref s < next_loc s)%nat /\
  (transport_agents_ref s < next_loc s)%nat /\
  (customer_agents_ref s < next_loc s)%nat.

(** A simulation that was started and is not running has its elapsed time
    stored. *)
Definition clock_ok (s : SimulatorAgent) : Prop :=
  truthy (simulation_init_time s) = true ->
  simulation_running s = false ->
  is_Some (simulation_time s).

#[global] Instance wf_dec s : Decision (wf s).
Proof. unfold wf. apply _. Defined.

#[global] Instance clock_ok_dec s : Decision (clock_ok s).
Proof. unfold clock_ok. apply _. Defined.

(** The clock of a simulation that never started, or was cleared: neither a
    start instant nor a stored elapsed time. *)
Definition never_started (s : SimulatorAgent) : Prop :=
  simulation_init_time s = None /\ simulation_time s = None.

(** The whole clock (start instant, stored elapsed time, running flag) of
    a simulation that never started: as [__init__] leaves it. *)
Definition clock_never_started (s : SimulatorAgent) : Prop :=
  simulation_init_time s = None /\
  simulation_time s = None /\
  simulation_running s = false.

(** [after] keeps, in the order of [before] and as they were, the items of
    [before] whose agent is not stopped, and nothing else. *)
Definition stable_filter (after before : dict) : Prop :=
  sublist after before /\
  forall item, item ∈ after <-> item ∈ before /\ stopped (snd item) = false.

(** Round robin over the identities [ids]: what the call number [k] of
    [next], counted from 0, is to return. *)
Definition turn (ids : list string) (k : nat) : result string :=
  match ids !! (k mod length ids) with
  | Some id => Ok id
  | None => Err StopIteration
  end.

(** The generator after [p] calls of [next] over the dict object at [src],
    which holds [d] throughout. *)
Definition gen_after (src : loc) (d : dict) (p : nat) : generator :=
  match p with
  | O => GenCreated
  | S _ =>
      if (p <=? length d)%nat
      then GenFirstPass src (length d) p (take p (values d))
      else GenCycling (values d) (p mod length d)
  end.

(** Among the checks [c], ..., [c + n - 1] of the kill flag, those that
    found it clear. *)
Definition clear_checks (kill : nat -> bool) (c n : nat) : list nat :=
  filter (fun q => kill q = false) (seq c n).

(** One call of an operation of the simulator. *)
Inductive step : SimulatorAgent -> SimulatorAgent -> Prop :=
| step_run now s : step s (run now s)
| step_stop now now' s s' : stop now now' s = Ok s' -> step s s'
| step_stop_agents now s : step s (stop_agents now s)
| step_clear_agents s : step s (clear_agents s)
| step_clear_stopped_agents s : step s (clear_stopped_agents s)
| step_add_manager agent s : step s (add_manager agent s)
| step_add_transport agent s : step s (add_transport agent s)
| step_add_customer agent s : step s (add_customer agent s)
| step_manager_assignment s s' : manager_assignment s = Ok s' -> step s s'
| step_next_manager s : step s (fst (next_manager s)).

(** The states the simulator can be in after [__init__]. *)
Inductive reachable : SimulatorAgent -> Prop :=
| reachable_init fleetmanager transport customer max :
    reachable (init fleetmanager transport customer max)
| reachable_step s s' : reachable s -> step s s' -> reachable s'.

(** ** Sample agents *)

Definition sample_agent (n : string) (is_stopped : bool) : Agent :=
  {| name := n; jid := n +:+ "@localhost"; stopped := is_stopped;
     strategies := []; waiting_time := 0; total_time := None;
     in_destination := false |}.

(** A simulator that is not running and holds two managers, two
    transports and a customer, one transport already stopped. *)
Definition sample : SimulatorAgent :=
  add_customer (sample_agent "c1" false)
    (add_transport (sample_agent "t2" true)
       (add_transport (sample_agent "t1" false)
          (add_manager (sample_agent "m2" false)
             (add_manager (sample_agent "m1" false)
                (init "fm.Strategy" "tr.Strategy" "cu.Strategy" None))))).

(** ** Agent creation and the control plane *)

(** [d.get(k)]: the agent stored under the key [k], if any. *)
Fixpoint dict_get (k : string) (d : dict) : option Agent :=
  match d with
  | [] => None
  | (k', v) :: rest => if decide (k = k') then Some v else dict_get k rest
  end.

(** What [set_fleetmanager] is given when an agent is created: nothing for
    a manager, the next identity of the rotation for a transport, the
    values view of the manager dict object for a customer. *)
Inductive fleetmanager :=
| NoFleetManager
| FleetManager (manager : string)
| FleetManagers (view : loc).

(** What [next(self.manager_generator)] gives the coroutine that calls
    it: the identity, or the exception as it leaves the coroutine. *)
Definition given_manager (r : result string) : result fleetmanager :=
  match r with
  | Ok manager => Ok (FleetManager manager)
  | Err StopIteration => Err RuntimeError
  | Err e => Err e
  end.

(** The collection and the strategy of a class of agents. *)
Definition collection (cls : agent_class) (s : SimulatorAgent) : dict :=
  match cls with
  | FleetManagerAgent => manager_agents s
  | TransportAgent => transport_agents s
  | CustomerAgent => customer_agents s
  end.

Definition strategy_of (cls : agent_class) (s : SimulatorAgent) : string :=
  match cls with
  | FleetManagerAgent => fleetmanager_strategy s
  | TransportAgent => transport_strategy s
  | CustomerAgent => customer_strategy s
  end.

(** [async_create_agent], run without another coroutine between its
    awaits.  [agent] is the object [cls(jid, password)] built and the
    setters configured; [startup] is the outcome of the awaited calls
    [set_position] and [start], which belong to the agent classes.  A
    [StopIteration] that leaves [next] inside a coroutine is turned into
    [RuntimeError] by Python.  The agent is in its collection when the
    strategy is added to it, so the change is written back under its key.
    The result is what [set_fleetmanager] received. *)
Definition async_create_agent (cls : agent_class) (agent : Agent)
  (startup : result unit) (s : SimulatorAgent)
  : SimulatorAgent * result fleetmanager :=
  let '(s, fleet) :=
    match cls with
    | FleetManagerAgent => (s, Ok NoFleetManager)
    | TransportAgent =>
        let '(s', r) := next_manager s in (s', given_manager r)
    | CustomerAgent => (s, Ok (FleetManagers (manager_agents_ref s)))
    end in
  match fleet, startup with
  | Err e, _ => (s, Err e)
  | Ok _, Err e => (s, Err e)
  | Ok given, Ok _ =>
      let '(strategy, add) :=
        match cls with
        | FleetManagerAgent => (fleetmanager_strategy s, add_manager)
        | TransportAgent => (transport_strategy s, add_transport)
        | CustomerAgent => (customer_strategy s, add_customer)
        end in
      let s := add agent s in
      let s := if simulation_running s
               then add (add_strategy strategy agent) s
               else s in
      (s, Ok given)
  end.

(** Transports created one after the other, each with a startup that
    succeeds; the results are in order of creation. *)
Fixpoint create_transports (agents : list Agent) (s : SimulatorAgent)
  : SimulatorAgent * list (result fleetmanager) :=
  match agents with
  | [] => (s, [])
  | agent :: rest =>
      let '(s1, r) := async_create_agent TransportAgent agent (Ok tt) s in
      let '(s2, rs) := create_transports rest s1 in
      (s2, r :: rs)
  end.

(** [clean_controller]: the state it leaves and the status it answers. *)
Definition clean_controller (now : Z) (s : SimulatorAgent)
  : SimulatorAgent * string :=
  let s := stop_agents now s in
  let s := clear_agents s in
  (s, "done").

(** Among the checks [c], ..., [c + n - 1] of the kill flag, those that
    found it set. *)
Definition set_checks (kill : nat -> bool) (c n : nat) : list nat :=
  filter (fun q => kill q = true) (seq c n).

(** The keys of a collection are pairwise distinct. *)
Definition unique_keys (d : dict) : Prop := NoDup (map fst d).

(** [after] is [before] with [agent] stored under its name: looking that
    name up gives [agent], every other key gives what it gave; a name
    that was present keeps its place, a new one comes last. *)
Definition stored (agent : Agent) (before after : dict) : Prop :=
  (forall k, dict_get k after =
             if decide (k = name agent) then Some agent
             else dict_get k before) /\
  map fst after =
    match dict_get (name agent) before with
    | Some _ => map fst before
    | None => map fst before ++ [name agent]
    end.

(** Stand-ins for [utils.avg] and the two-decimal format. *)
Definition sample_avg (l : list Z) : Z :=
  match l with
  | [] => 0
  | _ => foldr Z.add 0 l / Z.of_nat (length l)
  end%Z.

Definition sample_format (z : Z) : string := pretty z +:+ ".00".

End Simulator.

(** * Properties of the directory *)

Section DirectoryProperties.

Import Directory.

Variable json_loads : string -> result json.
Variable json_dumps : json -> string.
Variable transport_send : Message -> result unit.
Variables REQUEST_PROTOCOL REGISTER_PROTOCOL : string.
Variables INFORM_PERFORMATIVE ACCEPT_PERFORMATIVE : string.
Variables CANCEL_PERFORMATIVE REQUEST_PERFORMATIVE : string.

Local Abbreviation run_lookup :=
  (DirectoryStrategyBehaviour_run json_dumps transport_send REQUEST_PROTOCOL
     INFORM_PERFORMATIVE CANCEL_PERFORMATIVE REQUEST_PERFORMATIVE).
Local Abbreviation run_register :=
  (RegistrationBehaviour_run json_loads transport_send REGISTER_PROTOCOL
     ACCEPT_PERFORMATIVE REQUEST_PERFORMATIVE).
Local Abbreviation request :=
  (lookup_request REQUEST_PROTOCOL REQUEST_PERFORMATIVE).
Local Abbreviation inform :=
  (services_reply json_dumps REQUEST_PROTOCOL INFORM_PERFORMATIVE).
Local Abbreviation cancel :=
  (negative_reply REQUEST_PROTOCOL CANCEL_PERFORMATIVE).

(** A well-formed registration appends to the list of its type, or starts
    it, and sends nothing. *)
Lemma add_service_registration type jid d :
  add_service (registration type jid) d =
  ({| service_agents :=
        <[KStr type :=
            default [] (service_agents d !! KStr type) ++ [JStr jid]]>
          (service_agents d);
      outbox := outbox d |}, Ok tt).
Proof.
  unfold add_service, registration, bind, get_services, lift, set_services.
  simpl. destruct (service_agents d !! KStr type); reflexivity.
Qed.

Lemma registered_cons op ops type :
  registered (op :: ops) type =
  (if decide (fst op = type) then [JStr (snd op)] else []) ++
  registered ops type.
Proof. unfold registered. simpl. destruct (decide _); reflexivity. Qed.

(** The list stored under a type after a run of registrations: what was
    there before, followed by the identities registered under that type. *)
Lemma register_all_lookup ops : forall d type,
  service_agents (register_all ops d) !! KStr type =
  match service_agents d !! KStr type, registered ops type with
  | None, [] => None
  | old, new => Some (default [] old ++ new)
  end.
Proof.
  induction ops as [|op ops IH]; intros d type.
  - simpl. destruct (service_agents d !! KStr type); simpl;
      rewrite ?app_nil_r; reflexivity.
  - unfold register_all in *. simpl fold_left.
    rewrite IH, add_service_registration, registered_cons. simpl.
    destruct (decide (fst op = type)) as [->|Hne].
    + rewrite lookup_insert_eq. simpl.
      destruct (service_agents d !! KStr type); simpl;
        destruct (registered ops type); simpl;
        rewrite <- ?app_assoc; reflexivity.
    + rewrite lookup_insert_ne by congruence. reflexivity.
Qed.

Lemma register_all_outbox ops : forall d,
  outbox (register_all ops d) = outbox d.
Proof.
  induction ops as [|op ops IH]; intros d; [reflexivity|].
  unfold register_all in *. simpl fold_left.
  rewrite IH, add_service_registration. reflexivity.
Qed.

Lemma registered_nil ops type :
  registered ops type = [] <-> forall jid, (type, jid) ∉ ops.
Proof.
  induction ops as [|[t j] ops IH].
  - split; [intros _ jid H; inversion H | reflexivity].
  - rewrite registered_cons. simpl. split.
    + intros H jid Hin. destruct (decide (t = type)) as [->|Hne];
        [discriminate|].
      simpl in H. apply elem_of_cons in Hin as [Heq|Hin].
      * congruence.
      * exact (proj1 IH H jid Hin).
    + intros H. destruct (decide (t = type)) as [->|Hne].
      * exfalso. apply (H j). left.
      * simpl. apply IH. intros jid Hin. apply (H jid). right. exact Hin.
Qed.

Lemma registered_elem ops type x :
  x ∈ registered ops type -> exists jid, x = JStr jid /\ (type, jid) ∈ ops.
Proof.
  unfold registered. rewrite list_elem_of_omap.
  intros [[t j] [Hin Hf]]. simpl in Hf.
  destruct (decide (t = type)) as [->|]; [|discriminate].
  exists j. split; [congruence | exact Hin].
Qed.

(** One iteration of the lookup behaviour on a request: one reply handed to
    the substrate, chosen by the presence of the key. *)
Lemma run_lookup_request agent_id type d :
  run_lookup (Some (request agent_id type)) d =
  let reply :=
    match service_agents d !! KStr type with
    | Some ids => inform agent_id ids
    | None => cancel agent_id
    end in
  ({| service_agents := service_agents d; outbox := outbox d ++ [reply] |},
   transport_send reply).
Proof.
  unfold DirectoryStrategyBehaviour_run, lookup_request. simpl.
  rewrite decide_True by reflexivity.
  unfold bind, get_services, send_services, send_negative, send. simpl.
  destruct (service_agents d !! KStr type) as [ids|] eqn:E.
  - rewrite decide_True by eauto. unfold bind, get_services. simpl.
    rewrite E. reflexivity.
  - rewrite decide_False by (intros [? ?]; discriminate). reflexivity.
Qed.

(** C1. After any sequence of registrations on a new directory, a lookup
    request for a type is answered by exactly one message.  If the type is
    in the registry the answer is the INFORM reply carrying the identities
    registered under that type, in registration order and with repetitions
    kept; if it is not, the answer is the CANCEL reply, which has no body.
    The type is in the registry exactly when something was registered
    under it, the answer is the CANCEL reply exactly when the type is
    absent, and the lookup leaves the registry as it was. *)
Theorem lookup_after_registrations
  (ops : list (string * string)) (agent_id type : string) :
  let d := register_all ops init in
  let d' := fst (run_lookup (Some (request agent_id type)) d) in
  (is_Some (service_agents d !! KStr type) <->
     exists jid, (type, jid) ∈ ops) /\
  (is_Some (service_agents d !! KStr type) ->
     service_agents d !! KStr type = Some (registered ops type) /\
     outbox d' = [inform agent_id (registered ops type)]) /\
  (service_agents d !! KStr type = None ->
     outbox d' = [cancel agent_id]) /\
  (outbox d' = [cancel agent_id] <->
     service_agents d !! KStr type = None) /\
  service_agents d' = service_agents d.
Proof.
  intros d d'. subst d'. rewrite run_lookup_request. simpl.
  assert (Hout : outbox d = []) by (apply register_all_outbox).
  assert (Hlk := register_all_lookup ops init type). fold d in Hlk.
  change (service_agents init !! KStr type) with
    (@None (list json)) in Hlk.
  rewrite Hout. simpl.
  destruct (registered ops type) as [|id ids] eqn:Hreg; rewrite Hlk; simpl.
  - pose proof (proj1 (registered_nil ops type) Hreg) as Hno.
    split; [|split; [|split; [|split]]]; try reflexivity.
    + split; [intros [? ?]; discriminate|].
      intros [jid Hin]. exfalso. exact (Hno jid Hin).
    + intros [? ?]; discriminate.
    + split; reflexivity.
  - assert (Hsome : exists jid, (type, jid) ∈ ops).
    { destruct (registered_elem ops type id) as [jid [_ Hin]].
      - rewrite Hreg. left.
      - exists jid. exact Hin. }
    split; [|split; [|split; [|split]]]; try reflexivity.
    + split; [intros _; exact Hsome | eauto].
    + intros _. split; reflexivity.
    + discriminate.
    + split; discriminate.
Qed.

(** One iteration of the registration behaviour on a request whose body
    decodes to a well-formed registration: the identity is registered and
    the confirmation handed to the substrate, whether or not the send
    succeeds. *)
Lemma run_register_registration m type jid d :
  performative m = Some REQUEST_PERFORMATIVE ->
  loads_body json_loads (body m) = Ok (registration type jid) ->
  fst (run_register (Some m) d) =
  {| service_agents :=
       service_agents (fst (add_service (registration type jid) d));
     outbox :=
       outbox d ++ [{| sender := unset; to := sender m;
                       protocol := Some REGISTER_PROTOCOL;
                       performative := Some ACCEPT_PERFORMATIVE;
                       body := None |}] |}.
Proof.
  intros Hperf Hbody.
  unfold RegistrationBehaviour_run, try_except.
  rewrite decide_True by exact Hperf.
  unfold bind at 1. unfold lift at 1. rewrite Hbody.
  unfold bind at 1. rewrite add_service_registration.
  unfold send_confirmation, send. simpl.
  destruct (transport_send _); reflexivity.
Qed.

(** The registration behaviour catches whatever its iteration raises: a
    body that does not decode, a payload without the expected entries, a
    send that fails. *)
Lemma registration_run_never_raises msg d :
  snd (run_register msg d) = Ok tt.
Proof.
  unfold RegistrationBehaviour_run, try_except.
  match goal with |- context [match ?m d with _ => _ end] =>
    destruct (m d) as [d' [[]|e]] end; reflexivity.
Qed.

(** The lookup behaviour has no handler: its iteration on a request raises
    exactly what the substrate raises on the reply. *)
Lemma lookup_run_outcome agent_id type d :
  snd (run_lookup (Some (request agent_id type)) d) =
  transport_send
    (match service_agents d !! KStr type with
     | Some ids => inform agent_id ids
     | None => cancel agent_id
     end).
Proof. rewrite run_lookup_request. reflexivity. Qed.

(** Whatever identity is passed, [remove_service] raises and removes
    nothing: the subscript of the [del] on a list must be an integer. *)
Lemma remove_service_identity_raises type jid d :
  remove_service type (JStr jid) d = (d, Err KeyError) \/
  remove_service type (JStr jid) d = (d, Err TypeError).
Proof.
  unfold remove_service, bind, get_services. simpl.
  destruct (service_agents d !! type); [right | left]; reflexivity.
Qed.

(** An integer subscript in range does delete: the entry at that position,
    whoever it is. *)
Lemma remove_service_index type (i : nat) ids d :
  service_agents d !! type = Some ids ->
  (i < length ids)%nat ->
  remove_service type (JInt (Z.of_nat i)) d =
  ({| service_agents := <[type := delete i ids]> (service_agents d);
      outbox := outbox d |}, Ok tt).
Proof.
  intros Hty Hi. unfold remove_service, bind, get_services. simpl.
  rewrite Hty. unfold lift, list_delitem, del_index. simpl.
  destruct (Z.ltb_spec (Z.of_nat i) 0); [lia|].
  destruct (Z.leb_spec 0 (Z.of_nat i)); [|lia].
  destruct (Z.ltb_spec (Z.of_nat i) (Z.of_nat (length ids))); [|lia].
  simpl. rewrite Nat2Z.id. reflexivity.
Qed.

End DirectoryProperties.

(** C8. One iteration of the lookup behaviour on a well-formed request,
    while the messaging substrate refuses to send: the exception leaves
    [run], nothing catches it.  On the same substrate the registration
    behaviour, fed a request whose body does not decode, returns
    normally. *)
Theorem lookup_run_propagates_exception :
  let d := Directory.register_all [("taxi", "m1@host")] Directory.init in
  snd (Directory.DirectoryStrategyBehaviour_run
         Directory.opaque_dumps Directory.disconnected
         "REQUEST" "inform" "cancel" "request"
         (Some (Directory.lookup_request "REQUEST" "request"
                  "c1@host" "taxi")) d)
  = Err TransportError /\
  snd (Directory.RegistrationBehaviour_run
         Directory.undecodable Directory.disconnected
         "REGISTER" "accept" "request"
         (Some {| Directory.sender := "m2@host";
                  Directory.to := "directory@host";
                  Directory.protocol := Some "REGISTER";
                  Directory.performative := Some "request";
                  Directory.body := Some "not json" |}) d)
  = Ok tt.
Proof. split; reflexivity. Qed.

(** C9. Removing an identity that is registered under a type: the call
    raises [TypeError] and the registry still holds the entry. *)
Theorem remove_service_present_pair_raises :
  let d := Directory.register_all [("taxi", "m1@host")] Directory.init in
  Directory.service_agents d !! KStr "taxi" = Some [JStr "m1@host"] /\
  Directory.remove_service (KStr "taxi") (JStr "m1@host") d =
    (d, Err TypeError).
Proof. split; reflexivity. Qed.

(** * Properties of the simulator *)

Section SimulatorProperties.

Import Simulator.

(** ** Dict objects and their heap *)

Lemma deref_insert_eq (h : gmap loc dict) l d : deref (<[l := d]> h) l = d.
Proof. unfold deref. rewrite lookup_insert_eq. reflexivity. Qed.

Lemma deref_insert_ne (h : gmap loc dict) l l' d :
  l <> l' -> deref (<[l := d]> h) l' = deref h l'.
Proof.
  intros H. unfold deref. rewrite lookup_insert_ne by exact H. reflexivity.
Qed.

(** Evaluates the state updates of an operation down to heap lookups; the
    state should be a constructor application when this is called. *)
Ltac unfold_state :=
  cbv [manager_agents transport_agents customer_agents
       set_manager_agents set_transport_agents set_customer_agents
       clear_stopped_agents clear_agents add_manager add_transport
       add_customer run stop_agents
       alloc store with_heap with_refs with_flags with_clock with_generator
       heap next_loc manager_agents_ref transport_agents_ref
       customer_agents_ref simulation_running simulation_time
       simulation_init_time kill_simulator manager_generator
       fleetmanager_strategy transport_strategy customer_strategy max_time
       wf clock_ok never_started fst snd] in *.

(** Resolves the heap lookups that [unfold_state] leaves. *)
Ltac heap_simpl :=
  repeat first
    [ rewrite deref_insert_eq
    | rewrite deref_insert_ne by lia ].

(** ** The filter of [clear_stopped_agents] *)

Lemma not_stopped_elem (d : dict) item :
  item ∈ not_stopped d <-> item ∈ d /\ stopped (snd item) = false.
Proof.
  unfold not_stopped. rewrite !list_elem_of_In, filter_In.
  rewrite negb_true_iff. reflexivity.
Qed.

Lemma not_stopped_sublist (d : dict) : sublist (not_stopped d) d.
Proof.
  induction d as [|item d IH]; simpl.
  - constructor.
  - destruct (negb (stopped (snd item))); constructor; exact IH.
Qed.

(** ** Well-formedness is invariant *)

Lemma clear_stopped_agents_contents s :
  wf s ->
  manager_agents (clear_stopped_agents s) = not_stopped (manager_agents s) /\
  transport_agents (clear_stopped_agents s) = not_stopped (transport_agents s) /\
  customer_agents (clear_stopped_agents s) = not_stopped (customer_agents s).
Proof.
  destruct s. unfold_state.
  intros (Hmt & Hmc & Htc & Hm & Ht & Hc).
  heap_simpl. auto.
Qed.

Lemma wf_init fleetmanager transport customer max :
  wf (init fleetmanager transport customer max).
Proof. unfold wf. simpl. lia. Qed.

Lemma wf_clear_stopped_agents s : wf s -> wf (clear_stopped_agents s).
Proof. destruct s. unfold_state. lia. Qed.

Lemma wf_clear_agents s : wf s -> wf (clear_agents s).
Proof. destruct s. unfold_state. lia. Qed.

Lemma wf_run now s : wf s -> wf (run now s).
Proof.
  destruct s as [? ? ? ? ? running ? ? ? ? ? ? ? ?]. unfold_state.
  destruct running; simpl; lia.
Qed.

Lemma wf_stop_agents now s : wf s -> wf (stop_agents now s).
Proof.
  destruct s as [? ? ? ? ? ? time ? ? ? ? ? ? ?]. unfold_state.
  destruct (negb (truthy time)); trivial.
Qed.

Lemma wf_stop now now' s s' : stop now now' s = Ok s' -> wf s -> wf s'.
Proof.
  unfold stop.
  destruct (simulation_time (with_clock _ _ s)) eqn:E; [|discriminate].
  intros [= <-] H. apply wf_stop_agents. destruct s. exact H.
Qed.

Lemma wf_step s s' : step s s' -> wf s -> wf s'.
Proof.
  destruct 1; intros Hwf.
  - apply wf_run, Hwf.
  - eapply wf_stop; eassumption.
  - apply wf_stop_agents, Hwf.
  - apply wf_clear_agents, Hwf.
  - apply wf_clear_stopped_agents, Hwf.
  - destruct s. exact Hwf.
  - destruct s. exact Hwf.
  - destruct s. exact Hwf.
  - unfold manager_assignment in *. simplify_eq.
    destruct s. destruct (negb _); exact Hwf.
  - unfold next_manager. destruct s as [? ? ? ? ? ? ? ? ? g ? ? ? ?].
    destruct g as [g|]; [|exact Hwf].
    cbv [manager_generator heap manager_agents_ref].
    destruct (gen_next _ _ _). exact Hwf.
Qed.

(** ** The clock invariant *)

Lemma clock_ok_stop_agents now s : is_Some (simulation_time (stop_agents now s)).
Proof.
  destruct s as [? ? ? ? ? ? time init_time ? ? ? ? ? ?]. unfold_state.
  destruct time as [t|]; simpl.
  - destruct (negb (negb (t =? 0)%Z)); [|eauto].
    destruct (truthy init_time); eauto.
  - destruct (truthy init_time); eauto.
Qed.

Lemma clock_ok_step s s' : step s s' -> clock_ok s -> clock_ok s'.
Proof.
  destruct 1; intros Hok.
  - destruct s as [? ? ? ? ? running ? ? ? ? ? ? ? ?]. unfold_state.
    destruct running; simpl; intros; discriminate.
  - unfold stop in *.
    destruct (simulation_time (with_clock _ _ s)); [|discriminate].
    simplify_eq. intros _ _. apply clock_ok_stop_agents.
  - intros _ _. apply clock_ok_stop_agents.
  - destruct s. unfold_state. discriminate.
  - destruct s. unfold_state. discriminate.
  - destruct s. exact Hok.
  - destruct s. exact Hok.
  - destruct s. exact Hok.
  - unfold manager_assignment in *. simplify_eq.
    destruct s. destruct (negb _); exact Hok.
  - unfold next_manager. destruct s as [? ? ? ? ? ? ? ? ? g ? ? ? ?].
    destruct g as [g|]; [|exact Hok].
    cbv [manager_generator heap manager_agents_ref].
    destruct (gen_next _ _ _). exact Hok.
Qed.

(** Every reachable state is well formed and has a consistent clock. *)
Lemma reachable_invariant s : reachable s -> wf s /\ clock_ok s.
Proof.
  induction 1 as [|s s' _ [Hwf Hok] Hstep].
  - split; [apply wf_init | intros H; discriminate H].
  - split; [eapply wf_step | eapply clock_ok_step]; eassumption.
Qed.

(** ** Clearing the stopped agents *)

Lemma not_stopped_stable_filter (d : dict) : stable_filter (not_stopped d) d.
Proof.
  split; [apply not_stopped_sublist | intros item; apply not_stopped_elem].
Qed.

Lemma clear_stopped_agents_clock s :
  never_started (clear_stopped_agents s) /\
  (forall now, get_simulation_time now (clear_stopped_agents s) = Some 0%Z) /\
  simulation_running (clear_stopped_agents s) = simulation_running s.
Proof. destruct s. repeat split. Qed.

(** C7, as stated: after [clear_stopped_agents] the clock is that of a
    simulation that never started.  It is not when the simulation is
    running: a new simulator started at instant 100 is a reachable state,
    and on it [clear_stopped_agents] unsets the start instant and leaves
    the running flag set, a clock that is neither never started nor
    running since an instant. *)
Lemma clear_stopped_agents_keeps_running_flag :
  let s := run 100 (init "fm.Strategy" "tr.Strategy" "cu.Strategy" None) in
  reachable s /\
  simulation_running s = true /\
  simulation_init_time (clear_stopped_agents s) = None /\
  simulation_running (clear_stopped_agents s) = true /\
  ~ clock_never_started (clear_stopped_agents s).
Proof.
  intros s.
  split; [exact (reachable_step _ _ (reachable_init _ _ _ None)
                   (step_run 100 _))|].
  split; [reflexivity|]. split; [reflexivity|]. split; [reflexivity|].
  intros (_ & _ & Hrun). discriminate Hrun.
Qed.

(** C7, amended. [clear_stopped_agents] leaves in each of the three
    collections the agents that were there and are not stopped: in their
    former order, under their former key, each agent as it was, and no
    stopped agent.  Of the clock it unsets the start instant and the stored
    elapsed time, so that the elapsed time reads 0, and it leaves the
    running flag as it was: afterwards the clock is that of a simulation
    that never started exactly when the simulation was not running. *)
Theorem clear_stopped_agents_stable_filter s :
  wf s ->
  let s' := clear_stopped_agents s in
  (manager_agents s' = not_stopped (manager_agents s) /\
   stable_filter (manager_agents s') (manager_agents s)) /\
  (transport_agents s' = not_stopped (transport_agents s) /\
   stable_filter (transport_agents s') (transport_agents s)) /\
  (customer_agents s' = not_stopped (customer_agents s) /\
   stable_filter (customer_agents s') (customer_agents s)) /\
  simulation_init_time s' = None /\
  simulation_time s' = None /\
  (forall now, get_simulation_time now s' = Some 0%Z) /\
  simulation_running s' = simulation_running s /\
  (clock_never_started s' <-> simulation_running s = false).
Proof.
  intros Hwf s'. subst s'.
  destruct (clear_stopped_agents_contents s Hwf) as (Hm & Ht & Hc).
  rewrite Hm, Ht, Hc.
  pose proof (clear_stopped_agents_clock s) as ([Hi Hn] & Hz & Hr).
  pose proof not_stopped_stable_filter.
  assert (clock_never_started (clear_stopped_agents s)
          <-> simulation_running s = false)
    by (unfold clock_never_started; rewrite Hr; tauto).
  auto 12.
Qed.

Lemma clear_stopped_agents_stable_filter_witness :
  wf sample /\
  transport_agents (clear_stopped_agents sample) =
    [("t1", sample_agent "t1" false)] /\
  simulation_running sample = false /\
  clock_never_started (clear_stopped_agents sample).
Proof.
  assert (Hwf : wf sample) by (vm_compute; lia).
  assert (Hrun : simulation_running sample = false) by reflexivity.
  split; [exact Hwf|].
  destruct (clear_stopped_agents_stable_filter sample Hwf)
    as (_ & [Ht _] & _ & _ & _ & _ & _ & Hclock).
  split; [rewrite Ht; vm_compute; reflexivity|].
  split; [exact Hrun | exact (proj2 Hclock Hrun)].
Defined.

(** ** Stopping *)

Lemma get_simulation_time_is_Some now s :
  clock_ok s -> is_Some (get_simulation_time now s).
Proof.
  intros Hok. unfold get_simulation_time.
  destruct (truthy (simulation_init_time s)) eqn:Hinit; simpl; [|eauto].
  destruct (simulation_running s) eqn:Hrun; [eauto|].
  apply Hok; [exact Hinit | exact Hrun].
Qed.

Lemma for_each_stopped (d : dict) :
  Forall (fun agent => stopped agent = true)
    (values (for_each (fun agent => set_stopped (agent_stop agent)) d)) /\
  map fst (for_each (fun agent => set_stopped (agent_stop agent)) d) =
    map fst d.
Proof.
  induction d as [|[k a] d [IH1 IH2]]; simpl.
  - split; [constructor | reflexivity].
  - split; [constructor; [reflexivity | exact IH1] | f_equal; exact IH2].
Qed.

Lemma stop_agents_effect now s :
  wf s ->
  manager_agents (stop_agents now s) = manager_agents s /\
  transport_agents (stop_agents now s) =
    for_each (fun agent => set_stopped (agent_stop agent)) (transport_agents s) /\
  customer_agents (stop_agents now s) =
    for_each (fun agent => set_stopped (agent_stop agent)) (customer_agents s) /\
  simulation_running (stop_agents now s) = false /\
  kill_simulator (stop_agents now s) = true.
Proof.
  destruct s as [? ? ? ? ? ? time ? ? ? ? ? ? ?]. unfold_state.
  intros (Hmt & Hmc & Htc & _).
  destruct (negb (truthy time));
    repeat first [ rewrite deref_insert_eq
                 | rewrite deref_insert_ne by congruence ];
    auto.
Qed.

(** C6. On a well-formed state with a consistent clock [stop] returns, and
    afterwards every transport and every customer is stopped (the two
    collections hold the same keys as before), the running flag is false,
    the kill flag is set, and the manager collection is what it was: no
    manager was touched. *)
Theorem stop_stops_transports_and_customers s now now' :
  wf s -> clock_ok s ->
  exists s', stop now now' s = Ok s' /\
    Forall (fun agent => stopped agent = true) (values (transport_agents s')) /\
    map fst (transport_agents s') = map fst (transport_agents s) /\
    Forall (fun agent => stopped agent = true) (values (customer_agents s')) /\
    map fst (customer_agents s') = map fst (customer_agents s) /\
    simulation_running s' = false /\
    kill_simulator s' = true /\
    manager_agents s' = manager_agents s.
Proof.
  intros Hwf Hok.
  destruct (get_simulation_time_is_Some now s Hok) as [t Ht].
  unfold stop. rewrite Ht.
  set (s1 := with_clock (Some t) (simulation_init_time s) s).
  change (simulation_time s1) with (Some t).
  eexists. split; [reflexivity|].
  assert (Hwf1 : wf s1) by (destruct s; exact Hwf).
  destruct (stop_agents_effect now' s1 Hwf1) as (Hm & Htr & Hcu & Hrun & Hkill).
  rewrite Hm, Htr, Hcu, Hrun, Hkill.
  change (transport_agents s1) with (transport_agents s).
  change (customer_agents s1) with (customer_agents s).
  change (manager_agents s1) with (manager_agents s).
  pose proof (for_each_stopped (transport_agents s)) as [? ?].
  pose proof (for_each_stopped (customer_agents s)) as [? ?].
  auto 10.
Qed.

Lemma stop_stops_transports_and_customers_witness :
  wf sample /\ clock_ok sample /\
  exists s', stop 50 50 sample = Ok s' /\
    Forall (fun agent => stopped agent = true) (values (transport_agents s')) /\
    manager_agents s' = manager_agents sample.
Proof.
  assert (Hwf : wf sample) by (vm_compute; lia).
  assert (Hok : clock_ok sample) by (intros H; vm_compute in H; discriminate H).
  split; [exact Hwf|]. split; [exact Hok|].
  destruct (stop_stops_transports_and_customers sample 50 50 Hwf Hok)
    as (s' & Hs' & Ht & _ & _ & _ & _ & _ & Hm).
  exists s'. auto.
Defined.

(** ** Starting twice *)

Lemma run_running now s : simulation_running (run now s) = true.
Proof.
  destruct s as [? ? ? ? ? running ? ? ? ? ? ? ? ?]. unfold_state.
  destruct running; reflexivity.
Qed.

(** On a running simulation [run] is [clear_stopped_agents] and no more. *)
Lemma run_while_running now s :
  simulation_running s = true -> run now s = clear_stopped_agents s.
Proof.
  intros Hrun. unfold run.
  destruct (clear_stopped_agents_clock s) as (_ & _ & Hsame).
  rewrite Hsame, Hrun. reflexivity.
Qed.

(** After two calls of [run] the elapsed time reads 0 at every instant:
    the second call clears the start instant and, the simulation being
    already running, does not stamp a new one. *)
Lemma run_twice_elapsed_zero s t0 t now :
  simulation_running (run t (run t0 s)) = true /\
  simulation_init_time (run t (run t0 s)) = None /\
  get_simulation_time now (run t (run t0 s)) = Some 0%Z.
Proof.
  rewrite (run_while_running t (run t0 s) (run_running t0 s)).
  destruct (clear_stopped_agents_clock (run t0 s)) as ([Hinit _] & Hzero & Hsame).
  rewrite Hsame, run_running. auto.
Qed.

(** Between the two calls the elapsed time is measured from the first. *)
Lemma run_once_elapsed s t0 now :
  simulation_running s = false -> t0 <> 0%Z ->
  get_simulation_time now (run t0 s) = Some (now - t0)%Z.
Proof.
  destruct s as [? ? ? ? ? running ? ? ? ? ? ? ? ?].
  unfold get_simulation_time. unfold_state.
  intros -> Ht0. simpl.
  destruct (Z.eqb_spec t0 0); [congruence | reflexivity].
Qed.

(** C2. [run] at instant 100, a reading of 10 at instant 110, [run] again at
    instant 120 with no [stop] in between: the simulation is still running,
    its start instant is gone, and the reading at instant 130 is 0, where
    the origin of the first call would give 30. *)
Theorem second_run_resets_elapsed_time :
  let s0 := init "fm.Strategy" "tr.Strategy" "cu.Strategy" None in
  let s1 := run 100 s0 in
  let s2 := run 120 s1 in
  get_simulation_time 110 s1 = Some 10%Z /\
  simulation_running s2 = true /\
  simulation_init_time s2 = None /\
  get_simulation_time 130 s2 = Some 0%Z.
Proof. vm_compute. auto. Qed.

(** ** The manager generator *)

Lemma advance_mod (saved : list Agent) p :
  saved <> [] ->
  advance saved (p mod length saved) = (S p mod length saved)%nat.
Proof.
  intros Hne. unfold advance.
  assert (HM : length saved <> 0%nat) by (destruct saved; simpl; congruence).
  pose proof (Nat.mod_upper_bound p (length saved) HM) as Hr.
  pose proof (Nat.div_mod_eq p (length saved)) as Hp.
  destruct (Nat.leb_spec (length saved) (S (p mod length saved))) as [Hle|Hlt].
  - apply Nat.mod_unique with (q := S (p / length saved)); lia.
  - apply Nat.mod_unique with (q := (p / length saved)%nat); lia.
Qed.

Lemma gen_after_S src (d : dict) p :
  gen_after src d (S p) =
  if (S p <=? length d)%nat
  then GenFirstPass src (length d) (S p) (take (S p) (values d))
  else GenCycling (values d) (S p mod length d).
Proof. reflexivity. Qed.

Lemma values_lookup (d : dict) p k a :
  d !! p = Some (k, a) -> values d !! p = Some a.
Proof.
  intros Hp. unfold values. rewrite list_lookup_fmap, Hp. reflexivity.
Qed.

Lemma length_values (d : dict) : length (values d) = length d.
Proof. unfold values. apply length_map. Qed.

(** A step of the first pass inside the dict. *)
Lemma first_pass_inside (h : gmap loc dict) src (d : dict) p k a :
  deref h src = d -> d !! p = Some (k, a) ->
  first_pass h src (length d) p (take p (values d)) =
  (GenFirstPass src (length d) (S p) (take (S p) (values d)), Ok (jid a)).
Proof.
  intros Hd Hp. unfold first_pass. rewrite Hd, Nat.eqb_refl, Hp.
  rewrite (take_S_r _ _ _ (values_lookup d p k a Hp)). reflexivity.
Qed.

(** The step of the first pass that finds the dict exhausted. *)
Lemma first_pass_end (h : gmap loc dict) src (d : dict) k a d' :
  deref h src = d -> d = (k, a) :: d' ->
  first_pass h src (length d) (length d) (take (length d) (values d)) =
  (GenCycling (values d) (advance (values d) 0), Ok (jid a)).
Proof.
  intros Hd Hcons.
  assert (Htake : take (length d) (values d) = values d)
    by (rewrite <- length_values; apply firstn_all).
  rewrite Htake. unfold first_pass. rewrite Hd, Nat.eqb_refl.
  rewrite (lookup_ge_None_2 d (length d)) by lia.
  rewrite Hcons. reflexivity.
Qed.

(** One call of [next] on a non-empty dict that does not change: the
    generator yields the identity whose turn it is and moves on. *)
Lemma gen_next_after (h : gmap loc dict) src (d : dict) p :
  d <> [] -> deref h src = d ->
  gen_next h src (gen_after src d p) =
  (gen_after src d (S p), turn (map jid (values d)) p).
Proof.
  intros Hne Hd.
  destruct d as [|[k0 a0] d0] eqn:Hcons; [congruence|]. rewrite <- Hcons in *.
  assert (HM : (0 < length d)%nat) by (rewrite Hcons; simpl; lia).
  assert (Hvne : values d <> []) by (rewrite Hcons; discriminate).
  unfold turn. rewrite length_map, length_values.
  rewrite list_lookup_fmap.
  destruct p as [|p'].
  - (* the body starts on the first entry *)
    rewrite gen_after_S. cbn [gen_after gen_next].
    destruct (Nat.leb_spec 1 (length d)) as [_|]; [|lia].
    rewrite Nat.Div0.mod_0_l, Hd.
    change (first_pass h src (length d) 0 [])
      with (first_pass h src (length d) 0 (take 0 (values d))).
    rewrite (first_pass_inside h src d 0 k0 a0 Hd) by (rewrite Hcons; reflexivity).
    rewrite (values_lookup d 0 k0 a0) by (rewrite Hcons; reflexivity).
    reflexivity.
  - rewrite !gen_after_S.
    destruct (Nat.leb_spec (S p') (length d)) as [Hle|Hgt].
    + cbn [gen_next].
      destruct (d !! S p') as [[k a]|] eqn:Hp.
      * (* first pass, inside the dict *)
        assert (Hlt : (S p' < length d)%nat) by (eapply lookup_lt_Some; eauto).
        rewrite (first_pass_inside h src d (S p') k a Hd Hp).
        destruct (Nat.leb_spec (S (S p')) (length d)); [|lia].
        rewrite Nat.mod_small by exact Hlt.
        rewrite (values_lookup d (S p') k a Hp). reflexivity.
      * (* first pass, at the end of the dict *)
        assert (Hge : (length d <= S p')%nat) by (eapply lookup_ge_None; eauto).
        assert (Heq : S p' = length d) by lia.
        rewrite Heq.
        rewrite (first_pass_end h src d k0 a0 d0 Hd Hcons).
        destruct (Nat.leb_spec (S (length d)) (length d)); [lia|].
        rewrite Nat.Div0.mod_same.
        rewrite (values_lookup d 0 k0 a0) by (rewrite Hcons; reflexivity).
        pose proof (advance_mod (values d) (length d) Hvne) as Hadv.
        rewrite length_values, Nat.Div0.mod_same in Hadv.
        rewrite Hadv. reflexivity.
    + (* replay *)
      cbn [gen_next].
      assert (Hr : (S p' mod length d < length (values d))%nat)
        by (rewrite length_values; apply Nat.mod_upper_bound; lia).
      destruct (lookup_lt_is_Some_2 _ _ Hr) as [a Ha].
      rewrite Ha.
      destruct (Nat.leb_spec (S (S p')) (length d)); [lia|].
      rewrite <- (length_values d) at 1.
      rewrite advance_mod, length_values by exact Hvne. reflexivity.
Qed.

(** Successive calls of [next_manager] on a non-empty collection: the
    identities take turns, and the collection is not touched. *)
Lemma next_managers_turns (d : dict) n : forall p s,
  d <> [] -> manager_agents s = d ->
  manager_generator s = Some (gen_after (manager_agents_ref s) d p) ->
  snd (next_managers n s) = map (turn (map jid (values d))) (seq p n) /\
  manager_agents (fst (next_managers n s)) = d.
Proof.
  induction n as [|n IH]; intros p s Hne Hd Hg.
  - split; [reflexivity | exact Hd].
  - simpl. unfold next_manager. rewrite Hg.
    rewrite (gen_next_after _ _ d p Hne Hd).
    set (s1 := with_generator _ s).
    destruct (IH (S p) s1 Hne Hd eq_refl) as [Hout Hcoll].
    destruct (next_managers n s1) as [s2 rs]. simpl in *.
    split; [f_equal; exact Hout | exact Hcoll].
Qed.

Lemma turns_first_round (ids : list string) :
  map (turn ids) (seq 0 (length ids)) = map Ok ids.
Proof.
  apply list_eq. intros i.
  rewrite !list_lookup_fmap.
  destruct (decide (i < length ids)%nat) as [Hlt|Hge].
  - rewrite lookup_seq_lt by exact Hlt. simpl. unfold turn.
    rewrite Nat.mod_small by exact Hlt.
    destruct (lookup_lt_is_Some_2 ids i Hlt) as [id Hid].
    rewrite Hid. reflexivity.
  - rewrite lookup_seq_ge by lia. rewrite lookup_ge_None_2 by lia.
    reflexivity.
Qed.

(** C3. On a non-empty manager collection of size M, building the
    cursor succeeds, and the calls of [next] that follow return the
    managers' identities in turn: the first M calls return the identity
    of each of the M managers once, in the order of the collection; call
    M+1 returns what the first call returned; and in general call number
    k, counted from 0, returns the identity at position k mod M. *)
Theorem round_robin_assignment s :
  manager_agents s <> [] ->
  let M := length (manager_agents s) in
  let ids := map jid (values (manager_agents s)) in
  exists s1 first, manager_assignment s = Ok s1 /\
    head ids = Some first /\
    snd (next_managers M s1) = map Ok ids /\
    snd (next_managers (S M) s1) = map Ok ids ++ [Ok first] /\
    forall n, snd (next_managers n s1) = map (turn ids) (seq 0 n).
Proof.
  intros Hne M ids.
  assert (HM : length ids = M)
    by (unfold ids, values; rewrite !length_map; reflexivity).
  assert (Hfirst : exists first, head ids = Some first).
  { unfold ids. destruct (manager_agents s) as [|[k a] d];
      [congruence | simpl; eauto]. }
  destruct Hfirst as [first Hfirst].
  eexists. exists first. split; [reflexivity|].
  set (s1 := with_generator (Some GenCreated) _).
  assert (Hd : manager_agents s1 = manager_agents s).
  { unfold s1. destruct (negb _); reflexivity. }
  assert (Hall : forall n,
    snd (next_managers n s1) = map (turn ids) (seq 0 n)).
  { intros n.
    apply (next_managers_turns (manager_agents s) n 0 s1 Hne Hd eq_refl). }
  split; [exact Hfirst|]. split; [|split; [|exact Hall]].
  - rewrite Hall, <- HM. apply turns_first_round.
  - rewrite Hall. rewrite seq_S, map_app, <- HM, turns_first_round.
    simpl. f_equal. unfold turn. rewrite Nat.Div0.mod_same.
    destruct ids; simpl in *; congruence.
Qed.

Lemma round_robin_assignment_witness :
  manager_agents sample <> [] /\
  exists s1, manager_assignment sample = Ok s1 /\
    snd (next_managers 3 s1) =
      [Ok "m1@localhost"; Ok "m2@localhost"; Ok "m1@localhost"].
Proof.
  assert (Hne : manager_agents sample <> []) by discriminate.
  split; [exact Hne|].
  destruct (round_robin_assignment sample Hne)
    as (s1 & first & Hs1 & Hfirst & _ & Hnext & _).
  exists s1. split; [exact Hs1|].
  injection Hfirst as <-. exact Hnext.
Defined.

(** C4, as stated: building the cursor on an empty collection raises.  It
    does not: on the initial state, whose manager collection is empty,
    [manager_assignment] returns. *)
Lemma manager_assignment_empty_returns :
  let s := init "fm.Strategy" "tr.Strategy" "cu.Strategy" None in
  manager_agents s = [] /\
  ~ (exists e, manager_assignment s = Err e).
Proof. split; [reflexivity | intros [e H]; discriminate H]. Qed.

Lemma next_managers_finished n : forall s,
  manager_generator s = Some GenFinished ->
  snd (next_managers n s) = replicate n (Err StopIteration).
Proof.
  induction n as [|n IH]; intros s Hg; [reflexivity|].
  simpl. unfold next_manager. rewrite Hg. simpl.
  specialize (IH (with_generator (Some GenFinished) s) eq_refl).
  destruct (next_managers n _). simpl in *. f_equal. exact IH.
Qed.

(** C4, amended. On an empty manager collection building the cursor
    returns normally: no error at build time.  The failure comes with the
    first call of [next], which raises [StopIteration] if the collection is
    still empty; it returns no identity and does not loop, and every later
    call raises as well. *)
Theorem empty_cursor_fails_on_first_next s :
  manager_agents s = [] ->
  exists s1, manager_assignment s = Ok s1 /\
    snd (next_manager s1) = Err StopIteration /\
    manager_generator (fst (next_manager s1)) = Some GenFinished /\
    forall n, snd (next_managers n s1) = replicate n (Err StopIteration).
Proof.
  intros Hempty. eexists. split; [reflexivity|].
  set (s1 := with_generator (Some GenCreated) _).
  assert (Hd : deref (heap s1) (manager_agents_ref s1) = []).
  { unfold s1. destruct (negb _); exact Hempty. }
  assert (Hstep : next_manager s1 =
                  (with_generator (Some GenFinished) s1, Err StopIteration)).
  { unfold next_manager. change (manager_generator s1) with (Some GenCreated).
    cbn [gen_next]. unfold first_pass. rewrite Hd. reflexivity. }
  rewrite Hstep. simpl. repeat split.
  intros [|n]; [reflexivity|].
  simpl. rewrite Hstep.
  pose proof (next_managers_finished n
    (with_generator (Some GenFinished) s1) eq_refl) as Hrest.
  destruct (next_managers n _). simpl in *. f_equal. exact Hrest.
Qed.

Lemma empty_cursor_fails_on_first_next_witness :
  let s := init "fm.Strategy" "tr.Strategy" "cu.Strategy" None in
  manager_agents s = [] /\
  exists s1, manager_assignment s = Ok s1 /\
    snd (next_manager s1) = Err StopIteration.
Proof.
  intros s.
  assert (Hempty : manager_agents s = []) by reflexivity.
  split; [exact Hempty|].
  destruct (empty_cursor_fails_on_first_next s Hempty) as (s1 & H1 & H2 & _).
  exists s1. split; [exact H1 | exact H2].
Defined.

(** ** Batch creation and the kill flag *)

Lemma clear_checks_S_clear kill c n :
  kill c = false -> clear_checks kill c (S n) = c :: clear_checks kill (S c) n.
Proof.
  intros Hc. unfold clear_checks. simpl seq.
  rewrite filter_cons_True by exact Hc. reflexivity.
Qed.

Lemma clear_checks_app kill c n m :
  clear_checks kill c (n + m) =
  clear_checks kill c n ++ clear_checks kill (c + n) m.
Proof. unfold clear_checks. rewrite seq_app, filter_app. reflexivity. Qed.

Lemma clear_checks_all kill n : forall c,
  (forall q, (c <= q < c + n)%nat -> kill q = false) ->
  clear_checks kill c n = seq c n.
Proof.
  induction n as [|n IH]; intros c Hclear; [reflexivity|].
  rewrite clear_checks_S_clear by (apply Hclear; lia).
  simpl. f_equal. apply IH. intros q Hq. apply Hclear. lia.
Qed.

Lemma clear_checks_none kill n : forall c,
  (forall q, (c <= q < c + n)%nat -> kill q = true) ->
  clear_checks kill c n = [].
Proof.
  induction n as [|n IH]; intros c Hset; [reflexivity|].
  unfold clear_checks. simpl seq.
  rewrite filter_cons_False by (rewrite Hset by lia; discriminate).
  apply IH. intros q Hq. apply Hset. lia.
Qed.

(** One chunk: the checks made are consecutive, an agent is created at
    each check that finds the flag clear, and the chunk goes on at least
    until a check finds the flag set. *)
Lemma create_chunk_spec kill k : forall iteration c log,
  let r := create_chunk kill k iteration c log in
  (c <= fst r <= c + iteration)%nat /\
  snd r = log ++ map (mkCreation k) (clear_checks kill c (fst r - c)) /\
  (forall p, (c <= p < c + iteration)%nat ->
     (forall q, (c <= q < p)%nat -> kill q = false) -> (p < fst r)%nat).
Proof.
  induction iteration as [|rest IH]; intros c log; simpl.
  - rewrite Nat.sub_diag. simpl. rewrite app_nil_r.
    split; [lia|]. split; [reflexivity|]. intros p Hp. lia.
  - destruct (kill c) eqn:Hc; simpl.
    + split; [lia|]. split.
      * replace (S c - c)%nat with 1%nat by lia.
        unfold clear_checks. simpl seq.
        rewrite filter_cons_False by congruence.
        simpl. rewrite app_nil_r. reflexivity.
      * intros p Hp Hclear.
        destruct (decide (p = c)) as [->|Hne]; [lia|].
        rewrite (Hclear c) in Hc by lia. discriminate.
    + specialize (IH (S c) (log ++ [mkCreation k c])).
      destruct IH as (Hrange & Hlog & Hgo).
      split; [lia|]. split.
      * rewrite Hlog.
        replace (fst (create_chunk kill k rest (S c) (log ++ [mkCreation k c])) - c)%nat
          with (S (fst (create_chunk kill k rest (S c) (log ++ [mkCreation k c])) - S c))
          by lia.
        rewrite (clear_checks_S_clear kill c _ Hc). simpl.
        rewrite <- app_assoc. reflexivity.
      * intros p Hp Hclear.
        destruct (decide (p = c)) as [->|Hne]; [lia|].
        apply Hgo; [lia|]. intros q Hq. apply Hclear. lia.
Qed.

(** The whole batch, chunk after chunk. *)
Lemma create_chunks_spec kill k : forall iterations c log,
  let r := create_chunks kill k iterations c log in
  (c <= fst r <= c + sum_list iterations)%nat /\
  snd r = log ++ map (mkCreation k) (clear_checks kill c (fst r - c)) /\
  (forall p, (c <= p < c + sum_list iterations)%nat ->
     (forall q, (c <= q < p)%nat -> kill q = false) -> (p < fst r)%nat).
Proof.
  induction iterations as [|iteration rest IH]; intros c log; simpl.
  - rewrite Nat.sub_diag. simpl. rewrite app_nil_r.
    split; [lia|]. split; [reflexivity|]. intros p Hp. lia.
  - destruct (create_chunk_spec kill k iteration c log) as (Hr1 & Hl1 & Hg1).
    destruct (create_chunk kill k iteration c log) as [c1 log1] eqn:E1.
    simpl in Hr1, Hl1, Hg1.
    destruct (IH c1 log1) as (Hr2 & Hl2 & Hg2).
    destruct (create_chunks kill k rest c1 log1) as [c2 log2] eqn:E2.
    simpl in Hr2, Hl2, Hg2 |- *.
    split; [lia|]. split.
    + rewrite Hl2, Hl1.
      replace (c2 - c)%nat with ((c1 - c) + (c2 - c1))%nat by lia.
      rewrite clear_checks_app, map_app, <- app_assoc.
      replace (c + (c1 - c))%nat with c1 by lia. reflexivity.
    + intros p Hp Hclear.
      destruct (decide (p < c + iteration)%nat) as [Hin|Hout].
      * specialize (Hg1 p (conj (proj1 Hp) Hin) Hclear). lia.
      * assert (Hfull : c1 = (c + iteration)%nat).
        { destruct (decide (c1 = c + iteration)%nat) as [|Hlt]; [assumption|].
          assert (Hc1 : (c <= c1 < c + iteration)%nat) by lia.
          specialize (Hg1 c1 Hc1). 
          assert (c1 < c1)%nat; [|lia].
          apply Hg1. intros q Hq. apply Hclear. lia. }
        apply Hg2; [lia|]. intros q Hq. apply Hclear. lia.
Qed.

Lemma sum_batch_iterations number :
  sum_list (batch_iterations number) = Z.to_nat (Z.max number 0).
Proof.
  unfold batch_iterations.
  rewrite sum_list_with_app, sum_list_replicate. simpl.
  pose proof (Z.div_mod (Z.max number 0) 20 ltac:(lia)) as Hdm.
  pose proof (Z.mod_pos_bound (Z.max number 0) 20 ltac:(lia)) as Hmod.
  assert (0 <= Z.max number 0 / 20)%Z by (apply Z.div_pos; lia).
  lia.
Qed.

(** [create_agents_batch], whatever the other threads do to the flag: the
    agents created are those of the checks that found it clear, and there
    are never more checks than agents asked for. *)
Lemma create_agents_batch_spec kill k number :
  let r := create_agents_batch kill k number in
  (fst r <= Z.to_nat (Z.max number 0))%nat /\
  snd r = map (mkCreation k) (clear_checks kill 0 (fst r)) /\
  (forall p, (p < Z.to_nat (Z.max number 0))%nat ->
     (forall q, (q < p)%nat -> kill q = false) -> (p < fst r)%nat).
Proof.
  unfold create_agents_batch.
  destruct (create_chunks_spec kill k (batch_iterations number) 0 [])
    as (Hr & Hl & Hg).
  rewrite sum_batch_iterations in Hr, Hg.
  rewrite Nat.sub_0_r in Hl.
  split; [lia|]. split; [exact Hl|].
  intros p Hp Hclear. apply Hg; [lia|]. intros q Hq. apply Hclear. lia.
Qed.

(** C5. A batch of size K, K above the chunk size of 20, during which
    the kill flag is set: the first p checks find it clear and check
    number p, p < K, finds it set.  Then that check is made; the batch
    creates strictly fewer than K agents; every agent of the batch was
    created by a step whose own check had found the flag clear; and if
    the flag stays set from then on, the batch creates exactly the p
    agents of the checks before p and none after. *)
Theorem batch_cancellation kill k (K : Z) (p : nat) :
  (20 < K)%Z -> (Z.of_nat p < K)%Z ->
  (forall q, (q < p)%nat -> kill q = false) -> kill p = true ->
  let checks := fst (create_agents_batch kill k K) in
  let created := snd (create_agents_batch kill k K) in
  (p < checks)%nat /\
  (Z.of_nat (length created) < K)%Z /\
  (forall agent, agent ∈ created ->
     kill (check agent) = false /\ (check agent < checks)%nat) /\
  ((forall q, (p <= q)%nat -> kill q = true) ->
     created = map (mkCreation k) (seq 0 p)).
Proof.
  intros HK Hp Hclear Hset checks created.
  destruct (create_agents_batch_spec kill k K) as (Hle & Hlog & Hgo).
  fold checks in Hle, Hlog, Hgo. fold created in Hlog.
  assert (Hmade : (p < checks)%nat) by (apply Hgo; [lia | exact Hclear]).
  split; [exact Hmade|]. split; [|split].
  - rewrite Hlog, length_map.
    assert (length (clear_checks kill 0 checks) < length (seq 0 checks))%nat.
    { unfold clear_checks. apply length_filter_lt with (x := p).
      - apply elem_of_seq. lia.
      - congruence. }
    rewrite length_seq in *. lia.
  - intros agent Hin. rewrite Hlog in Hin.
    apply list_elem_of_fmap in Hin as (q & -> & Hq).
    unfold clear_checks in Hq. apply list_elem_of_filter in Hq as [Hq Hseq].
    apply elem_of_seq in Hseq. simpl. split; [exact Hq | lia].
  - intros Hstays. rewrite Hlog. f_equal.
    replace checks with (p + (checks - p))%nat by lia.
    rewrite clear_checks_app, clear_checks_all, clear_checks_none.
    + apply app_nil_r.
    + intros q Hq. apply Hstays. lia.
    + intros q Hq. apply Hclear. lia.
Qed.

Lemma batch_cancellation_witness :
  let kill := fun q => (25 <=? q)%nat in
  (20 < 50)%Z /\ (Z.of_nat 25 < 50)%Z /\
  (forall q, (q < 25)%nat -> kill q = false) /\ kill 25%nat = true /\
  (Z.of_nat (length (snd (create_agents_batch kill TransportAgent 50))) < 50)%Z /\
  snd (create_agents_batch kill TransportAgent 50) =
    map (mkCreation TransportAgent) (seq 0 25).
Proof.
  intros kill.
  assert (H1 : (20 < 50)%Z) by lia.
  assert (H2 : (Z.of_nat 25 < 50)%Z) by lia.
  assert (H3 : forall q, (q < 25)%nat -> kill q = false)
    by (intros q Hq; apply Nat.leb_gt; lia).
  assert (H4 : kill 25%nat = true) by reflexivity.
  destruct (batch_cancellation kill TransportAgent 50 25 H1 H2 H3 H4)
    as (_ & Hfewer & _ & Hexact).
  split; [exact H1|]. split; [exact H2|]. split; [exact H3|].
  split; [exact H4|]. split; [exact Hfewer|].
  apply Hexact. intros q Hq. apply Nat.leb_le. exact Hq.
Defined.

(** ** Statistics *)

Section StatsProperties.

Variable avg : list Z -> Z.
Variable format_2f : Z -> string.

(** C10, as stated: without customers the finished flag is false.  With a
    maximum time of 5 configured, a simulation started at instant 100 and
    holding no customer reports, at instant 200, that it is finished. *)
Lemma stats_finished_without_customers :
  let s := run 100 (init "fm.Strategy" "tr.Strategy" "cu.Strategy" (Some 5%Z)) in
  customer_agents s = [] /\
  exists st, get_stats sample_avg sample_format 200 s = Ok st /\
             finished st = true.
Proof.
  split; [vm_compute; reflexivity|].
  eexists. split; [vm_compute; reflexivity | reflexivity].
Qed.

(** C10, amended. Without customers [get_stats] returns, on a state with
    a consistent clock; it reports 0 for the average waiting time and for
    the average total time; and its finished flag is false unless a
    maximum time is configured and the elapsed time exceeds it, in which
    case it is true. *)
Theorem stats_without_customers now s :
  clock_ok s -> customer_agents s = [] ->
  exists elapsed, get_simulation_time now s = Some elapsed /\
    get_stats avg format_2f now s =
    Ok {| waiting := format_2f 0;
          totaltime := format_2f 0;
          finished := match max_time s with
                      | Some max => (max <? elapsed)%Z
                      | None => false
                      end;
          is_running := simulation_running s |}.
Proof.
  intros Hok Hnone.
  destruct (get_simulation_time_is_Some now s Hok) as [elapsed He].
  exists elapsed. split; [exact He|].
  unfold get_stats, is_simulation_finished, time_is_out, is_simulation_finish.
  rewrite Hnone, He. simpl.
  destruct (max_time s) as [max|]; simpl; [|reflexivity].
  rewrite orb_false_r. reflexivity.
Qed.

End StatsProperties.

Lemma stats_without_customers_witness :
  let s := run 100 (init "fm.Strategy" "tr.Strategy" "cu.Strategy" (Some 500%Z)) in
  clock_ok s /\ customer_agents s = [] /\
  exists st, get_stats sample_avg sample_format 200 s = Ok st /\
    waiting st = "0.00" /\ totaltime st = "0.00" /\ finished st = false.
Proof.
  intros s.
  assert (Hok : clock_ok s) by (intros _ H; vm_compute in H; discriminate H).
  assert (Hnone : customer_agents s = []) by (vm_compute; reflexivity).
  split; [exact Hok|]. split; [exact Hnone|].
  destruct (stats_without_customers sample_avg sample_format 200 s Hok Hnone)
    as (elapsed & He & Hstats).
  eexists. split; [exact Hstats|].
  assert (elapsed = 100%Z)
    by (vm_compute in He; injection He as <-; reflexivity).
  subst elapsed. repeat split; vm_compute; reflexivity.
Defined.

End SimulatorProperties.

(** * Further properties of the directory *)

Section RegistryLoop.

Import Directory.

Variable json_loads : string -> result json.
Variable json_dumps : json -> string.
Variable transport_send : Message -> result unit.
Variables REQUEST_PROTOCOL REGISTER_PROTOCOL : string.
Variables INFORM_PERFORMATIVE ACCEPT_PERFORMATIVE : string.
Variables CANCEL_PERFORMATIVE REQUEST_PERFORMATIVE : string.

Local Abbreviation run_lookup :=
  (DirectoryStrategyBehaviour_run json_dumps transport_send REQUEST_PROTOCOL
     INFORM_PERFORMATIVE CANCEL_PERFORMATIVE REQUEST_PERFORMATIVE).
Local Abbreviation run_register :=
  (RegistrationBehaviour_run json_loads transport_send REGISTER_PROTOCOL
     ACCEPT_PERFORMATIVE REQUEST_PERFORMATIVE).
Local Abbreviation accept :=
  (confirmation REGISTER_PROTOCOL ACCEPT_PERFORMATIVE).
Local Abbreviation inform :=
  (services_reply json_dumps REQUEST_PROTOCOL INFORM_PERFORMATIVE).
Local Abbreviation cancel :=
  (negative_reply REQUEST_PROTOCOL CANCEL_PERFORMATIVE).

(** The registry once [jid] is appended to the list under [k]. *)
Local Abbreviation appended k jid d :=
  (<[k := default [] (service_agents d !! k) ++ [jid]]> (service_agents d)).

(** The two ways [add_service] can end. *)
Lemma add_service_cases agent d :
  (exists k jid,
     (exists ty, getitem agent "type" = Ok ty /\ hash_key ty = Ok k) /\
     getitem agent "jid" = Ok jid /\
     add_service agent d =
       ({| service_agents := appended k jid d; outbox := outbox d |}, Ok tt))
  \/ (exists e, add_service agent d = (d, Err e)).
Proof.
  unfold add_service, bind, get_services, lift, set_services. simpl.
  destruct (getitem agent "type") as [ty|e] eqn:Hty; [|right; eauto].
  destruct (hash_key ty) as [k|e] eqn:Hk; [|right; eauto].
  destruct (service_agents d !! k) as [l|] eqn:Hl;
    (destruct (getitem agent "jid") as [jid|e] eqn:Hjid; [|right; eauto]);
    left; exists k, jid; rewrite Hl; eauto.
Qed.

(** What [add_service] does with a payload that has a hashable [type]
    entry and a [jid] entry. *)
Lemma add_service_well_formed agent d ty k jid :
  getitem agent "type" = Ok ty ->
  hash_key ty = Ok k ->
  getitem agent "jid" = Ok jid ->
  add_service agent d =
    ({| service_agents := appended k jid d; outbox := outbox d |}, Ok tt).
Proof.
  intros Hty Hk Hjid.
  unfold add_service, bind, get_services, lift, set_services. simpl.
  rewrite Hty, Hk.
  destruct (service_agents d !! k); rewrite Hjid; reflexivity.
Qed.

(** What it does with any other payload. *)
Lemma add_service_malformed agent d :
  (exists e, getitem agent "type" = Err e) \/
  (exists ty e, getitem agent "type" = Ok ty /\ hash_key ty = Err e) \/
  (exists e, getitem agent "jid" = Err e) ->
  exists e, add_service agent d = (d, Err e).
Proof.
  intros Hbad.
  destruct (add_service_cases agent d)
    as [(k & jid & (ty & Hty & Hk) & Hjid & _)|He]; [|exact He].
  destruct Hbad as [[e He]|[(ty' & e & Hty' & He)|[e He]]]; congruence.
Qed.

(** X1. [add_service] is all or nothing.  If the payload is a dict with a
    hashable [type] entry and a [jid] entry, the call returns and the
    identity is appended to the list of that type (a new list if there
    was none), every other list and the outbox being left alone.  In
    every other case the call raises and the directory is exactly as
    before: the exception is that of the [type] subscript if that fails,
    else that of hashing the type, else that of the [jid] subscript. *)
Theorem add_service_all_or_nothing agent d :
  (forall ty k jid,
     getitem agent "type" = Ok ty ->
     hash_key ty = Ok k ->
     getitem agent "jid" = Ok jid ->
     add_service agent d =
       ({| service_agents :=
             <[k := default [] (service_agents d !! k) ++ [jid]]>
               (service_agents d);
           outbox := outbox d |}, Ok tt) /\
     service_agents (fst (add_service agent d)) !! k =
       Some (default [] (service_agents d !! k) ++ [jid]) /\
     forall k', k' <> k ->
       service_agents (fst (add_service agent d)) !! k' =
       service_agents d !! k') /\
  (forall e,
     getitem agent "type" = Err e ->
     add_service agent d = (d, Err e)) /\
  (forall ty e,
     getitem agent "type" = Ok ty ->
     hash_key ty = Err e ->
     add_service agent d = (d, Err e)) /\
  (forall ty k e,
     getitem agent "type" = Ok ty ->
     hash_key ty = Ok k ->
     getitem agent "jid" = Err e ->
     add_service agent d = (d, Err e)).
Proof.
  split; [|split; [|split]].
  - intros ty k jid Hty Hk Hjid.
    rewrite (add_service_well_formed agent d ty k jid Hty Hk Hjid). simpl.
    split; [reflexivity|]. split; [apply lookup_insert_eq|].
    intros k' Hne. apply lookup_insert_ne. congruence.
  - intros e Hty.
    unfold add_service, bind, get_services, lift. simpl.
    rewrite Hty. reflexivity.
  - intros ty e Hty Hk.
    unfold add_service, bind, get_services, lift. simpl.
    rewrite Hty, Hk. reflexivity.
  - intros ty k e Hty Hk Hjid.
    unfold add_service, bind, get_services, lift. simpl.
    rewrite Hty, Hk. destruct (service_agents d !! k); rewrite Hjid;
      reflexivity.
Qed.

(** The two ways one iteration of the registration behaviour can end. *)
Lemma run_register_cases msg d :
  (exists m content k jid,
     msg = Some m /\
     performative m = Some REQUEST_PERFORMATIVE /\
     loads_body json_loads (body m) = Ok content /\
     (exists ty, getitem content "type" = Ok ty /\ hash_key ty = Ok k) /\
     getitem content "jid" = Ok jid /\
     fst (run_register msg d) =
       {| service_agents := appended k jid d;
          outbox := outbox d ++ [accept (sender m)] |})
  \/ fst (run_register msg d) = d.
Proof.
  unfold RegistrationBehaviour_run, try_except.
  destruct msg as [m|]; [|right; reflexivity].
  destruct (decide (performative m = Some REQUEST_PERFORMATIVE)) as [Hp|Hp];
    [|right; reflexivity].
  destruct (loads_body json_loads (body m)) as [content|e] eqn:Hc;
    cbv beta iota delta [bind lift]; [|right; reflexivity].
  destruct (add_service_cases content d)
    as [(k & jid & Hty & Hjid & ->)|[e ->]]; [|right; reflexivity].
  left. exists m, content, k, jid.
  repeat split; try assumption.
  unfold send_confirmation, send, confirmation. simpl.
  destruct (transport_send _); reflexivity.
Qed.

(** X2. One iteration of the registration behaviour, whatever the decoder
    and the substrate do, returns normally.  If what [receive] returned is
    a request whose body decodes to a dict with a hashable [type] entry
    and a [jid] entry, the identity is registered and exactly one message,
    the ACCEPT confirmation addressed to the sender, is handed to the
    substrate.  In every other case (a timeout, another performative, a
    body that does not decode, a payload without a hashable [type] or
    without a [jid]) the directory is exactly as before, nothing
    registered and nothing sent. *)
Theorem registration_run_registers_and_confirms_or_nothing msg d :
  snd (run_register msg d) = Ok tt /\
  (forall m content ty k jid,
     msg = Some m ->
     performative m = Some REQUEST_PERFORMATIVE ->
     loads_body json_loads (body m) = Ok content ->
     getitem content "type" = Ok ty ->
     hash_key ty = Ok k ->
     getitem content "jid" = Ok jid ->
     fst (run_register msg d) =
       {| service_agents :=
            <[k := default [] (service_agents d !! k) ++ [jid]]>
              (service_agents d);
          outbox := outbox d ++ [accept (sender m)] |}) /\
  (msg = None -> fst (run_register msg d) = d) /\
  (forall m,
     msg = Some m ->
     performative m <> Some REQUEST_PERFORMATIVE ->
     fst (run_register msg d) = d) /\
  (forall m e,
     msg = Some m ->
     performative m = Some REQUEST_PERFORMATIVE ->
     loads_body json_loads (body m) = Err e ->
     fst (run_register msg d) = d) /\
  (forall m content,
     msg = Some m ->
     performative m = Some REQUEST_PERFORMATIVE ->
     loads_body json_loads (body m) = Ok content ->
     (exists e, getitem content "type" = Err e) \/
     (exists ty e, getitem content "type" = Ok ty /\ hash_key ty = Err e) \/
     (exists e, getitem content "jid" = Err e) ->
     fst (run_register msg d) = d).
Proof.
  split.
  { unfold RegistrationBehaviour_run, try_except.
    match goal with |- context [match ?m d with _ => _ end] =>
      destruct (m d) as [d' [[]|e]] end; reflexivity. }
  unfold RegistrationBehaviour_run, try_except.
  split; [|split; [|split; [|split]]].
  - intros m content ty k jid -> Hp Hc Hty Hk Hjid.
    rewrite decide_True by exact Hp. rewrite Hc.
    cbv beta iota delta [bind lift].
    rewrite (add_service_well_formed content d ty k jid Hty Hk Hjid).
    unfold send_confirmation, send, confirmation. simpl.
    destruct (transport_send _); reflexivity.
  - intros ->. reflexivity.
  - intros m -> Hp. rewrite decide_False by exact Hp. reflexivity.
  - intros m e -> Hp Hc. rewrite decide_True by exact Hp. rewrite Hc.
    reflexivity.
  - intros m content -> Hp Hc Hbad.
    rewrite decide_True by exact Hp. rewrite Hc.
    cbv beta iota delta [bind lift].
    destruct (add_service_malformed content d Hbad) as [e ->]. reflexivity.
Qed.

Lemma run_register_append_only msg d k old :
  service_agents d !! k = Some old ->
  exists new,
    service_agents (fst (run_register msg d)) !! k = Some (old ++ new).
Proof.
  intros Hold.
  destruct (run_register_cases msg d)
    as [(m & content & k' & jid & _ & _ & _ & _ & _ & ->)| ->].
  - simpl. destruct (decide (k' = k)) as [->|Hne].
    + rewrite lookup_insert_eq, Hold. simpl. eauto.
    + rewrite lookup_insert_ne by exact Hne. exists []. rewrite app_nil_r.
      exact Hold.
  - exists []. rewrite app_nil_r. exact Hold.
Qed.

(** X3. The registration loop only ever appends.  Whatever messages
    arrive, in whatever order, a list that is in the registry stays there
    and keeps its entries in place: the list found afterwards under the
    same type is the old one followed by the identities registered
    since.  No message removes or reorders a registered identity. *)
Theorem registration_loop_append_only msgs : forall d k old,
  service_agents d !! k = Some old ->
  exists new,
    service_agents
      (registration_loop json_loads transport_send REGISTER_PROTOCOL
         ACCEPT_PERFORMATIVE REQUEST_PERFORMATIVE msgs d) !! k
    = Some (old ++ new).
Proof.
  induction msgs as [|msg msgs IH]; intros d k old Hold.
  - exists []. rewrite app_nil_r. exact Hold.
  - unfold registration_loop in *. simpl fold_left.
    destruct (run_register_append_only msg d k old Hold) as [new1 H1].
    destruct (IH _ k _ H1) as [new2 H2].
    exists (new1 ++ new2). rewrite app_assoc. exact H2.
Qed.

(** X4. One iteration of the lookup behaviour never changes the registry,
    whatever it received.  It hands at most one message to the substrate:
    none on a timeout or on a message that is not a request; on a request
    exactly one, addressed to the requester, which is the list stored
    under the body of the request or the refusal, and the iteration ends
    as the send of that one message ends. *)
Theorem lookup_run_read_only msg d :
  service_agents (fst (run_lookup msg d)) = service_agents d /\
  ((run_lookup msg d = (d, Ok tt) /\
    forall m, msg = Some m ->
      performative m <> Some REQUEST_PERFORMATIVE)
   \/
   (exists m reply,
      msg = Some m /\
      performative m = Some REQUEST_PERFORMATIVE /\
      reply = match service_agents d !! body_key (body m) with
              | Some ids => inform (sender m) ids
              | None => cancel (sender m)
              end /\
      to reply = sender m /\
      outbox (fst (run_lookup msg d)) = outbox d ++ [reply] /\
      snd (run_lookup msg d) = transport_send reply)).
Proof.
  unfold DirectoryStrategyBehaviour_run.
  destruct msg as [m|];
    [|split; [reflexivity | left; split; [reflexivity | discriminate]]].
  destruct (decide (performative m = Some REQUEST_PERFORMATIVE)) as [Hp|Hp].
  - unfold bind, get_services, send_services, send_negative, send. simpl.
    destruct (service_agents d !! body_key (body m)) as [ids|] eqn:E.
    + rewrite decide_True by eauto. unfold bind, get_services. simpl.
      rewrite E. simpl. split; [reflexivity|]. right.
      exists m, (inform (sender m) ids). rewrite E. auto 10.
    + rewrite decide_False by (intros [? ?]; discriminate). simpl.
      split; [reflexivity|]. right.
      exists m, (cancel (sender m)). rewrite E. auto 10.
  - split; [reflexivity|]. left. split; [reflexivity|].
    intros m' [= <-]. exact Hp.
Qed.

(** [del l[i]] within the bounds of [l], counting from the end when [i] is
    negative. *)
Lemma del_index_in_bounds {A} (i : Z) (l : list A) :
  (- Z.of_nat (length l) <= i < Z.of_nat (length l))%Z ->
  del_index i l = Ok (delete (Z.to_nat (i mod Z.of_nat (length l))) l).
Proof.
  intros Hi. unfold del_index.
  assert (Hj : ((if i <? 0 then i + Z.of_nat (length l) else i)
                = i mod Z.of_nat (length l))%Z).
  { destruct (Z.ltb_spec i 0).
    - apply (Z.mod_unique_pos _ _ (-1)); lia.
    - symmetry. apply Z.mod_small. lia. }
  rewrite Hj.
  pose proof (Z.mod_pos_bound i (Z.of_nat (length l)) ltac:(lia)) as Hm.
  destruct (Z.leb_spec 0 (i mod Z.of_nat (length l))); [|lia].
  destruct (Z.ltb_spec (i mod Z.of_nat (length l)) (Z.of_nat (length l)));
    [reflexivity | lia].
Qed.

Lemma del_index_out_of_bounds {A} (i : Z) (l : list A) :
  (i < - Z.of_nat (length l) \/ Z.of_nat (length l) <= i)%Z ->
  del_index i l = Err IndexError.
Proof.
  intros Hi. unfold del_index.
  pose proof (Nat2Z.is_nonneg (length l)) as Hn.
  destruct (Z.ltb_spec i 0) as [Hneg|Hpos].
  - destruct (Z.leb_spec 0 (i + Z.of_nat (length l))); [|reflexivity].
    destruct (Z.ltb_spec (i + Z.of_nat (length l)) (Z.of_nat (length l)));
      [lia | reflexivity].
  - destruct (Z.leb_spec 0 i); [|reflexivity].
    destruct (Z.ltb_spec i (Z.of_nat (length l))); [lia | reflexivity].
Qed.

(** X5. [remove_service] is all or nothing as well, and what it removes is
    a position, not an identity.  If the type is in the registry and the
    subscript is an integer within the bounds of its list (a negative one
    counting from the end), the call returns and exactly the entry at
    that position leaves the list, the rest keeping its order and every
    other list being left alone.  In every other case the call raises and
    the directory is exactly as before: [KeyError] for a type that is not
    in the registry, [IndexError] for an integer out of bounds,
    [TypeError] for a subscript that is not an integer, an identity
    included.  A boolean subscript counts as the integer 0 or 1. *)
Theorem remove_service_all_or_nothing type d :
  (forall ids i,
     service_agents d !! type = Some ids ->
     (- Z.of_nat (length ids) <= i < Z.of_nat (length ids))%Z ->
     let ids' := delete (Z.to_nat (i mod Z.of_nat (length ids))) ids in
     remove_service type (JInt i) d =
       ({| service_agents := <[type := ids']> (service_agents d);
           outbox := outbox d |}, Ok tt) /\
     length ids = S (length ids') /\
     sublist ids' ids) /\
  (forall agent,
     service_agents d !! type = None ->
     remove_service type agent d = (d, Err KeyError)) /\
  (forall ids i,
     service_agents d !! type = Some ids ->
     (i < - Z.of_nat (length ids) \/ Z.of_nat (length ids) <= i)%Z ->
     remove_service type (JInt i) d = (d, Err IndexError)) /\
  (forall ids agent,
     service_agents d !! type = Some ids ->
     (forall i, agent <> JInt i) ->
     (forall b, agent <> JBool b) ->
     remove_service type agent d = (d, Err TypeError)) /\
  (forall b : bool,
     remove_service type (JBool b) d =
     remove_service type (JInt (if b then 1 else 0)) d).
Proof.
  split; [|split; [|split; [|split]]].
  - intros ids i Hty Hi ids'.
    unfold remove_service, bind, get_services, lift, set_services.
    simpl. rewrite Hty. simpl.
    rewrite (del_index_in_bounds i ids Hi). fold ids'.
    split; [reflexivity|].
    assert (Hm : (0 <= i mod Z.of_nat (length ids) < Z.of_nat (length ids))%Z)
      by (apply Z.mod_pos_bound; lia).
    split; [|apply sublist_delete].
    subst ids'. rewrite length_delete by (apply lookup_lt_is_Some_2; lia). lia.
  - intros agent Hty.
    unfold remove_service, bind, get_services, raise. simpl.
    rewrite Hty. reflexivity.
  - intros ids i Hty Hi.
    unfold remove_service, bind, get_services, lift. simpl.
    rewrite Hty. simpl.
    rewrite (del_index_out_of_bounds i ids Hi). reflexivity.
  - intros ids agent Hty Hint Hbool.
    unfold remove_service, bind, get_services, lift. simpl.
    rewrite Hty.
    destruct agent as [|b|i| | |]; try reflexivity.
    + destruct (Hbool b eq_refl).
    + destruct (Hint i eq_refl).
  - reflexivity.
Qed.

End RegistryLoop.

Lemma add_service_all_or_nothing_witness :
  let d := Directory.register_all [("taxi", "m0@host")] Directory.init in
  let agent := Directory.registration "taxi" "m1@host" in
  (getitem agent "type" = Ok (JStr "taxi") /\
   hash_key (JStr "taxi") = Ok (KStr "taxi") /\
   getitem agent "jid" = Ok (JStr "m1@host") /\
   Directory.service_agents (fst (Directory.add_service agent d))
     !! KStr "taxi" = Some [JStr "m0@host"; JStr "m1@host"]) /\
  (getitem (JStr "m1@host") "type" = Err TypeError /\
   Directory.add_service (JStr "m1@host") d = (d, Err TypeError)).
Proof.
  intros d agent.
  destruct (add_service_all_or_nothing agent d) as (Hok & _).
  destruct (add_service_all_or_nothing (JStr "m1@host") d) as (_ & Herr & _).
  split.
  - repeat (split; [reflexivity|]).
    exact (proj1 (proj2 (Hok (JStr "taxi") (KStr "taxi") (JStr "m1@host")
                           eq_refl eq_refl eq_refl))).
  - split; [reflexivity | exact (Herr TypeError eq_refl)].
Defined.

Lemma registration_run_registers_and_confirms_or_nothing_witness :
  let d := Directory.register_all [("taxi", "m0@host")] Directory.init in
  let request :=
    {| Directory.sender := "m1@host"; Directory.to := "directory@host";
       Directory.protocol := Some "REGISTER";
       Directory.performative := Some "request";
       Directory.body := Some "payload" |} in
  fst (Directory.RegistrationBehaviour_run Directory.taxi_decoder
         Directory.disconnected "REGISTER" "accept" "request"
         (Some request) d) =
    {| Directory.service_agents :=
         <[KStr "taxi" := [JStr "m0@host"; JStr "m1@host"]]>
           (Directory.service_agents d);
       Directory.outbox :=
         [Directory.confirmation "REGISTER" "accept" "m1@host"] |} /\
  fst (Directory.RegistrationBehaviour_run Directory.undecodable
         Directory.connected "REGISTER" "accept" "request"
         (Some request) d) = d.
Proof.
  intros d request.
  destruct (registration_run_registers_and_confirms_or_nothing
              Directory.taxi_decoder Directory.disconnected
              "REGISTER" "accept" "request" (Some request) d)
    as (_ & Hok & _).
  destruct (registration_run_registers_and_confirms_or_nothing
              Directory.undecodable Directory.connected
              "REGISTER" "accept" "request" (Some request) d)
    as (_ & _ & _ & _ & Herr & _).
  split.
  - exact (Hok request (Directory.registration "taxi" "m1@host")
             (JStr "taxi") (KStr "taxi") (JStr "m1@host")
             eq_refl eq_refl eq_refl eq_refl eq_refl eq_refl).
  - exact (Herr request JSONDecodeError eq_refl eq_refl eq_refl).
Defined.

Lemma remove_service_all_or_nothing_witness :
  let d :=
    Directory.register_all [("taxi", "m0@host"); ("taxi", "m1@host")]
      Directory.init in
  Directory.service_agents d !! KStr "taxi"
    = Some [JStr "m0@host"; JStr "m1@host"] /\
  Directory.remove_service (KStr "taxi") (JInt (-1)) d =
    ({| Directory.service_agents :=
          <[KStr "taxi" := [JStr "m0@host"]]> (Directory.service_agents d);
        Directory.outbox := [] |}, Ok tt) /\
  Directory.remove_service (KStr "taxi") (JInt 2) d = (d, Err IndexError) /\
  Directory.remove_service (KStr "taxi") (JStr "m0@host") d
    = (d, Err TypeError).
Proof.
  intros d.
  assert (Hold : Directory.service_agents d !! KStr "taxi"
                 = Some [JStr "m0@host"; JStr "m1@host"]) by reflexivity.
  destruct (remove_service_all_or_nothing (KStr "taxi") d)
    as (Hok & _ & Hout & Hty & _).
  split; [exact Hold|]. split; [|split].
  - exact (proj1 (Hok _ (-1)%Z Hold ltac:(simpl; lia))).
  - exact (Hout _ 2%Z Hold ltac:(simpl; lia)).
  - exact (Hty _ (JStr "m0@host") Hold ltac:(discriminate) ltac:(discriminate)).
Defined.

Lemma registration_loop_append_only_witness :
  let d := Directory.register_all [("taxi", "m0@host")] Directory.init in
  let request :=
    {| Directory.sender := "m1@host"; Directory.to := "directory@host";
       Directory.protocol := Some "REGISTER";
       Directory.performative := Some "request";
       Directory.body := Some "payload" |} in
  Directory.service_agents d !! KStr "taxi" = Some [JStr "m0@host"] /\
  exists new,
    Directory.service_agents
      (Directory.registration_loop Directory.taxi_decoder
         Directory.disconnected "REGISTER" "accept" "request"
         [Some request; None] d) !! KStr "taxi"
    = Some ([JStr "m0@host"] ++ new).
Proof.
  intros d request.
  assert (Hold : Directory.service_agents d !! KStr "taxi"
                 = Some [JStr "m0@host"]) by reflexivity.
  split; [exact Hold|].
  exact (registration_loop_append_only Directory.taxi_decoder
           Directory.disconnected "REGISTER" "accept" "request"
           [Some request; None] d (KStr "taxi") [JStr "m0@host"] Hold).
Defined.

(** * Further properties of the simulator *)

Section Lifecycle.

Import Simulator.

(** Evaluates the state updates of an operation down to heap lookups; the
    state should be a constructor application when this is called. *)
Ltac unfold_sim :=
  cbv [manager_agents transport_agents customer_agents
       set_manager_agents set_transport_agents set_customer_agents
       clear_stopped_agents clear_agents add_manager add_transport
       add_customer run stop_agents clean_controller
       alloc store with_heap with_refs with_flags with_clock with_generator
       heap next_loc manager_agents_ref transport_agents_ref
       customer_agents_ref simulation_running simulation_time
       simulation_init_time kill_simulator manager_generator
       fleetmanager_strategy transport_strategy customer_strategy max_time
       wf clock_ok never_started fst snd] in *.

(** Resolves the heap lookups that [unfold_sim] leaves. *)
Ltac heap_lookup :=
  repeat first
    [ rewrite deref_insert_eq
    | rewrite deref_insert_ne by (congruence || lia) ].

(** ** Collections as dicts *)

Lemma dict_get_set k k' v (d : dict) :
  dict_get k (dict_set k' v d) =
  if decide (k = k') then Some v else dict_get k d.
Proof.
  induction d as [|[k0 v0] d IH]; simpl.
  - destruct (decide (k = k')); reflexivity.
  - destruct (decide (k' = k0)) as [->|Hne]; simpl.
    + destruct (decide (k = k0)); reflexivity.
    + rewrite IH. destruct (decide (k = k0)) as [->|]; [|reflexivity].
      rewrite decide_False by congruence. reflexivity.
Qed.

Lemma dict_set_keys k v (d : dict) :
  map fst (dict_set k v d) =
  match dict_get k d with
  | Some _ => map fst d
  | None => map fst d ++ [k]
  end.
Proof.
  induction d as [|[k0 v0] d IH]; simpl; [reflexivity|].
  destruct (decide (k = k0)) as [->|Hne]; simpl; [reflexivity|].
  rewrite IH. destruct (dict_get k d); reflexivity.
Qed.

Lemma dict_set_stored agent (d : dict) :
  stored agent d (dict_set (name agent) agent d).
Proof.
  split; [intros k; apply dict_get_set | apply dict_set_keys].
Qed.

Lemma dict_get_None k (d : dict) : dict_get k d = None -> k ∉ map fst d.
Proof.
  induction d as [|[k0 v0] d IH]; simpl; intros H.
  - apply not_elem_of_nil.
  - destruct (decide (k = k0)); [discriminate|].
    apply not_elem_of_cons. split; [assumption | apply IH, H].
Qed.

Lemma unique_keys_dict_set k v (d : dict) :
  unique_keys d -> unique_keys (dict_set k v d).
Proof.
  unfold unique_keys. intros Hd. rewrite dict_set_keys.
  destruct (dict_get k d) eqn:E; [exact Hd|].
  apply NoDup_app. split; [exact Hd|]. split.
  - intros x Hx Hk. apply list_elem_of_singleton in Hk as ->.
    exact (dict_get_None _ _ E Hx).
  - apply NoDup_singleton.
Qed.

Lemma unique_keys_not_stopped (d : dict) :
  unique_keys d -> unique_keys (not_stopped d).
Proof.
  unfold unique_keys. intros Hd.
  eapply sublist_NoDup; [exact Hd|].
  apply (fmap_sublist fst), not_stopped_sublist.
Qed.

Lemma for_each_keys f (d : dict) : map fst (for_each f d) = map fst d.
Proof.
  unfold for_each. rewrite map_map. reflexivity.
Qed.

Lemma unique_keys_for_each f (d : dict) :
  unique_keys d -> unique_keys (for_each f d).
Proof. unfold unique_keys. rewrite for_each_keys. trivial. Qed.

(** ** What each operation does to the three collections *)

Lemma add_manager_contents agent s :
  wf s ->
  manager_agents (add_manager agent s) =
    dict_set (name agent) agent (manager_agents s) /\
  transport_agents (add_manager agent s) = transport_agents s /\
  customer_agents (add_manager agent s) = customer_agents s.
Proof.
  destruct s. unfold_sim. intros (Hmt & Hmc & Htc & _).
  heap_lookup. auto.
Qed.

Lemma add_transport_contents agent s :
  wf s ->
  manager_agents (add_transport agent s) = manager_agents s /\
  transport_agents (add_transport agent s) =
    dict_set (name agent) agent (transport_agents s) /\
  customer_agents (add_transport agent s) = customer_agents s.
Proof.
  destruct s. unfold_sim. intros (Hmt & Hmc & Htc & _).
  heap_lookup. auto.
Qed.

Lemma add_customer_contents agent s :
  wf s ->
  manager_agents (add_customer agent s) = manager_agents s /\
  transport_agents (add_customer agent s) = transport_agents s /\
  customer_agents (add_customer agent s) =
    dict_set (name agent) agent (customer_agents s).
Proof.
  destruct s. unfold_sim. intros (Hmt & Hmc & Htc & _).
  heap_lookup. auto.
Qed.

Lemma clear_agents_contents s :
  wf s ->
  manager_agents (clear_agents s) = [] /\
  transport_agents (clear_agents s) = [] /\
  customer_agents (clear_agents s) = [].
Proof.
  destruct s. unfold_sim. intros (Hmt & Hmc & Htc & Hm & Ht & Hc).
  heap_lookup. auto.
Qed.

Lemma run_contents now s :
  wf s ->
  let inject strategy d :=
    if simulation_running s then not_stopped d
    else for_each (add_strategy strategy) (not_stopped d) in
  manager_agents (run now s) =
    inject (fleetmanager_strategy s) (manager_agents s) /\
  transport_agents (run now s) =
    inject (transport_strategy s) (transport_agents s) /\
  customer_agents (run now s) =
    inject (customer_strategy s) (customer_agents s).
Proof.
  destruct s as [? ? ? ? ? running ? ? ? ? ? ? ? ?]. unfold_sim.
  intros (Hmt & Hmc & Htc & Hm & Ht & Hc).
  destruct running; cbn [negb]; cbv iota; heap_lookup; auto.
Qed.

(** X6. [add_manager], [add_transport] and [add_customer] store the agent
    under its name in their own collection and touch neither of the other
    two.  Looking the name up afterwards gives the agent; every other key
    gives what it gave before; a name that was already in use keeps its
    place and loses its former agent, so the collection does not grow; a
    new name comes last. *)
Theorem add_agent_stores_under_name agent s :
  wf s ->
  (stored agent (manager_agents s) (manager_agents (add_manager agent s)) /\
   transport_agents (add_manager agent s) = transport_agents s /\
   customer_agents (add_manager agent s) = customer_agents s) /\
  (stored agent (transport_agents s)
     (transport_agents (add_transport agent s)) /\
   manager_agents (add_transport agent s) = manager_agents s /\
   customer_agents (add_transport agent s) = customer_agents s) /\
  (stored agent (customer_agents s) (customer_agents (add_customer agent s)) /\
   manager_agents (add_customer agent s) = manager_agents s /\
   transport_agents (add_customer agent s) = transport_agents s).
Proof.
  intros Hwf.
  destruct (add_manager_contents agent s Hwf) as (-> & -> & ->).
  destruct (add_transport_contents agent s Hwf) as (-> & -> & ->).
  destruct (add_customer_contents agent s Hwf) as (-> & -> & ->).
  pose proof (dict_set_stored agent). auto 10.
Qed.

Lemma add_agent_stores_under_name_witness :
  wf sample /\
  dict_get "t1" (transport_agents (add_transport (sample_agent "t1" true) sample))
    = Some (sample_agent "t1" true) /\
  map fst (transport_agents (add_transport (sample_agent "t1" true) sample))
    = ["t1"; "t2"].
Proof.
  assert (Hwf : wf sample) by (vm_compute; lia).
  split; [exact Hwf|].
  destruct (add_agent_stores_under_name (sample_agent "t1" true) sample Hwf)
    as (_ & ([Hget Hkeys] & _) & _).
  split.
  - rewrite Hget. reflexivity.
  - rewrite Hkeys. vm_compute. reflexivity.
Defined.

(** ** Keys stay distinct *)

Lemma unique_keys_step s s' :
  step s s' -> wf s ->
  unique_keys (manager_agents s) /\ unique_keys (transport_agents s) /\
  unique_keys (customer_agents s) ->
  unique_keys (manager_agents s') /\ unique_keys (transport_agents s') /\
  unique_keys (customer_agents s').
Proof.
  destruct 1; intros Hwf (Hm & Ht & Hc).
  - destruct (run_contents now s Hwf) as (-> & -> & ->).
    destruct (simulation_running s);
      auto using unique_keys_not_stopped, unique_keys_for_each.
  - unfold stop in H.
    destruct (simulation_time (with_clock _ _ s)); [|discriminate].
    injection H as <-.
    set (s1 := with_clock _ _ s).
    assert (Hwf1 : wf s1) by (destruct s; exact Hwf).
    destruct (stop_agents_effect now' s1 Hwf1) as (-> & -> & -> & _).
    change (manager_agents s1) with (manager_agents s).
    change (transport_agents s1) with (transport_agents s).
    change (customer_agents s1) with (customer_agents s).
    auto using unique_keys_for_each.
  - destruct (stop_agents_effect now s Hwf) as (-> & -> & -> & _).
    auto using unique_keys_for_each.
  - destruct (clear_agents_contents s Hwf) as (-> & -> & ->).
    repeat split; apply NoDup_nil_2.
  - destruct (clear_stopped_agents_contents s Hwf) as (-> & -> & ->).
    auto using unique_keys_not_stopped.
  - destruct (add_manager_contents agent s Hwf) as (-> & -> & ->).
    auto using unique_keys_dict_set.
  - destruct (add_transport_contents agent s Hwf) as (-> & -> & ->).
    auto using unique_keys_dict_set.
  - destruct (add_customer_contents agent s Hwf) as (-> & -> & ->).
    auto using unique_keys_dict_set.
  - unfold manager_assignment in H. injection H as <-.
    destruct s. destruct (negb _); auto.
  - unfold next_manager. destruct s as [? ? ? ? ? ? ? ? ? g ? ? ? ?].
    destruct g as [g|]; [|auto].
    cbv [manager_generator heap manager_agents_ref].
    destruct (gen_next _ _ _). auto.
Qed.

(** X7. In every state the simulator can reach, each of the three
    collections holds pairwise distinct keys: whatever sequence of adds,
    starts, stops and clears led there, no name occurs twice in a
    collection. *)
Theorem reachable_unique_keys s :
  reachable s ->
  unique_keys (manager_agents s) /\ unique_keys (transport_agents s) /\
  unique_keys (customer_agents s).
Proof.
  intros Hreach.
  enough (wf s /\ (unique_keys (manager_agents s) /\
                   unique_keys (transport_agents s) /\
                   unique_keys (customer_agents s))) by tauto.
  induction Hreach as [|s s' _ [Hwf Hkeys] Hstep].
  - split; [apply wf_init|]. repeat split; apply NoDup_nil_2.
  - split; [eapply wf_step | eapply unique_keys_step]; eassumption.
Qed.

Lemma reachable_sample : reachable sample.
Proof.
  unfold sample.
  repeat (eapply reachable_step;
          [|first [apply step_add_customer | apply step_add_transport
                  | apply step_add_manager]]).
  apply reachable_init.
Defined.

Lemma reachable_unique_keys_witness :
  reachable sample /\
  unique_keys (manager_agents sample) /\ unique_keys (transport_agents sample) /\
  unique_keys (customer_agents sample).
Proof.
  split; [exact reachable_sample|].
  exact (reachable_unique_keys sample reachable_sample).
Defined.

(** ** Starting, stopping, starting again *)

Lemma run_flags now s :
  simulation_running (run now s) = true /\
  kill_simulator (run now s) =
    (if simulation_running s then kill_simulator s else false) /\
  simulation_time (run now s) = None /\
  simulation_init_time (run now s) =
    (if simulation_running s then None else Some now).
Proof.
  destruct s as [? ? ? ? ? running ? ? ? ? ? ? ? ?]. unfold_sim.
  destruct running; auto.
Qed.

(** X8. What [run] does.  It first drops the stopped agents from the three
    collections, in every case.  If the simulation was not running it then
    clears the kill flag, adds to every remaining manager, transport and
    customer the strategy of its kind, once, sets the running flag and
    stamps the start instant.  If the simulation was already running it
    does nothing more: no strategy is added to any agent, the kill flag
    keeps its value, and no start instant is stamped. *)
Theorem run_effect now s :
  wf s ->
  let s' := run now s in
  simulation_running s' = true /\
  simulation_time s' = None /\
  (simulation_running s = false ->
     manager_agents s' =
       for_each (add_strategy (fleetmanager_strategy s))
         (not_stopped (manager_agents s)) /\
     transport_agents s' =
       for_each (add_strategy (transport_strategy s))
         (not_stopped (transport_agents s)) /\
     customer_agents s' =
       for_each (add_strategy (customer_strategy s))
         (not_stopped (customer_agents s)) /\
     kill_simulator s' = false /\
     simulation_init_time s' = Some now) /\
  (simulation_running s = true ->
     manager_agents s' = not_stopped (manager_agents s) /\
     transport_agents s' = not_stopped (transport_agents s) /\
     customer_agents s' = not_stopped (customer_agents s) /\
     kill_simulator s' = kill_simulator s /\
     simulation_init_time s' = None).
Proof.
  intros Hwf s'. subst s'.
  destruct (run_contents now s Hwf) as (Hm & Ht & Hc).
  destruct (run_flags now s) as (Hrun & Hkill & Htime & Hinit).
  rewrite Hm, Ht, Hc, Hkill, Hinit.
  split; [exact Hrun|]. split; [exact Htime|].
  split; intros ->; auto 10.
Qed.

Lemma run_effect_witness :
  wf sample /\ simulation_running sample = false /\
  transport_agents (run 100 sample) =
    [("t1", add_strategy "tr.Strategy" (sample_agent "t1" false))] /\
  kill_simulator (run 100 sample) = false /\
  simulation_init_time (run 100 sample) = Some 100%Z.
Proof.
  assert (Hwf : wf sample) by (vm_compute; lia).
  assert (Hrun : simulation_running sample = false) by reflexivity.
  split; [exact Hwf|]. split; [exact Hrun|].
  destruct (run_effect 100 sample Hwf) as (_ & _ & Hstart & _).
  destruct (Hstart Hrun) as (_ & Ht & _ & Hkill & Hinit).
  split; [rewrite Ht; vm_compute; reflexivity|].
  split; [exact Hkill | exact Hinit].
Defined.

Lemma stop_agents_clock now s :
  simulation_init_time (stop_agents now s) = simulation_init_time s /\
  simulation_time (stop_agents now s) =
    (if truthy (simulation_time s) then simulation_time s
     else if truthy (simulation_init_time s)
          then Some (now - default 0%Z (simulation_init_time s))%Z
          else Some 0%Z).
Proof.
  destruct s as [? ? ? ? ? ? time init_time ? ? ? ? ? ?]. unfold_sim.
  destruct (truthy time); simpl; auto.
Qed.

Lemma stop_agents_frame now s :
  simulation_running (stop_agents now s) = false /\
  fleetmanager_strategy (stop_agents now s) = fleetmanager_strategy s /\
  manager_generator (stop_agents now s) = manager_generator s.
Proof.
  destruct s as [? ? ? ? ? ? time ? ? ? ? ? ? ?]. unfold_sim.
  destruct (negb (truthy time)); auto.
Qed.

Lemma not_stopped_for_each_stopped (d : dict) :
  not_stopped (for_each (fun agent => set_stopped (agent_stop agent)) d) = [].
Proof. induction d as [|[k a] d IH]; simpl; [reflexivity | exact IH]. Qed.

(** The state [stop] hands to [stop_agents]. *)
Lemma stop_inv now now' s s' :
  stop now now' s = Ok s' ->
  exists elapsed,
    get_simulation_time now s = Some elapsed /\
    s' = stop_agents now'
           (with_clock (Some elapsed) (simulation_init_time s) s).
Proof.
  unfold stop.
  destruct (get_simulation_time now s) as [elapsed|] eqn:E.
  - cbn [simulation_time with_clock]. intros [= <-]. eauto.
  - cbn [simulation_time with_clock]. discriminate.
Qed.

(** X9. [stop] freezes the clock.  On a state with a consistent clock it
    returns, and afterwards [get_simulation_time] gives the same value at
    every instant.  For a simulation that was running since a start
    instant [t0] and is stopped at a later reading [now], that value is
    [now - t0]; for one that was never started it is 0. *)
Theorem stop_freezes_elapsed_time s now now' :
  clock_ok s ->
  exists s' frozen,
    stop now now' s = Ok s' /\
    (forall later, get_simulation_time later s' = Some frozen) /\
    (forall t0, simulation_running s = true ->
       simulation_init_time s = Some t0 -> t0 <> 0%Z -> now <> t0 ->
       frozen = (now - t0)%Z) /\
    (truthy (simulation_init_time s) = false -> frozen = 0%Z).
Proof.
  intros Hok.
  destruct (get_simulation_time_is_Some now s Hok) as [elapsed He].
  unfold stop. rewrite He. cbn [simulation_time with_clock].
  set (s1 := with_clock (Some elapsed) (simulation_init_time s) s).
  destruct (stop_agents_clock now' s1) as [Hinit Htime].
  change (simulation_init_time s1) with (simulation_init_time s) in *.
  change (simulation_time s1) with (Some elapsed) in *.
  destruct (stop_agents_frame now' s1) as (Hrun & _).
  destruct (truthy (simulation_init_time s)) eqn:Hi.
  - (* started *)
    destruct (simulation_init_time s) as [t0|] eqn:Ht0; [|discriminate].
    simpl in Hi. apply negb_true_iff, Z.eqb_neq in Hi.
    exists (stop_agents now' s1),
      (if (elapsed =? 0)%Z then (now' - t0)%Z else elapsed).
    split; [reflexivity|]. split; [|split].
    + intros later. unfold get_simulation_time.
      rewrite Hinit, Hrun, Htime. simpl.
      destruct (Z.eqb_spec t0 0); [congruence|]. simpl.
      destruct (Z.eqb_spec elapsed 0); reflexivity.
    + intros t0' Hr [= <-] _ Hnow.
      unfold get_simulation_time in He. rewrite Ht0, Hr in He. simpl in He.
      destruct (Z.eqb_spec t0 0); [congruence|]. simpl in He.
      injection He as <-.
      destruct (Z.eqb_spec (now - t0) 0); [lia | reflexivity].
    + discriminate.
  - (* never started *)
    exists (stop_agents now' s1), 0%Z.
    split; [reflexivity|]. split; [|split].
    + intros later. unfold get_simulation_time. rewrite Hinit, Hi. reflexivity.
    + intros t0 _ Ht0 Hne _. rewrite Ht0 in Hi. simpl in Hi.
      apply negb_false_iff, Z.eqb_eq in Hi. congruence.
    + reflexivity.
Qed.

Lemma stop_freezes_elapsed_time_witness :
  let s := run 100 sample in
  clock_ok s /\
  exists s', stop 160 160 s = Ok s' /\
    get_simulation_time 500 s' = Some 60%Z.
Proof.
  intros s.
  assert (Hok : clock_ok s) by (intros _ H; vm_compute in H; discriminate H).
  split; [exact Hok|].
  destruct (stop_freezes_elapsed_time s 160 160 Hok)
    as (s' & frozen & Hstop & Hfrozen & Hrunning & _).
  exists s'. split; [exact Hstop|].
  rewrite Hfrozen. f_equal.
  apply (Hrunning 100%Z); [reflexivity | reflexivity | lia | lia].
Defined.

(** X10. Starting again after a stop empties the transport and customer
    collections.  [stop] marks every transport and every customer as
    stopped, and [run] begins by dropping the stopped agents: after
    [stop] then [run] no transport and no customer is left.  The managers
    that were not stopped are kept, each with the manager strategy added
    once more, and the clock starts anew at the instant of the second
    start. *)
Theorem restart_drops_transports_and_customers s now now' t s1 :
  wf s -> stop now now' s = Ok s1 ->
  transport_agents (run t s1) = [] /\
  customer_agents (run t s1) = [] /\
  manager_agents (run t s1) =
    for_each (add_strategy (fleetmanager_strategy s))
      (not_stopped (manager_agents s)) /\
  simulation_running (run t s1) = true /\
  kill_simulator (run t s1) = false /\
  simulation_init_time (run t s1) = Some t.
Proof.
  intros Hwf Hstop.
  destruct (stop_inv now now' s s1 Hstop) as (elapsed & _ & ->).
  set (s0 := with_clock (Some elapsed) (simulation_init_time s) s).
  assert (Hwf0 : wf s0) by (destruct s; exact Hwf).
  destruct (stop_agents_effect now' s0 Hwf0) as (Hm & Ht & Hc & Hrun & _).
  pose proof (wf_stop_agents now' s0 Hwf0) as Hwf1.
  destruct (run_contents t (stop_agents now' s0) Hwf1) as (Hm' & Ht' & Hc').
  destruct (run_flags t (stop_agents now' s0)) as (Hr & Hkill & _ & Hinit).
  rewrite Hrun in Hm', Ht', Hc', Hkill, Hinit. cbv zeta iota in Hm', Ht', Hc'.
  rewrite Hm', Ht', Hc', Hm, Ht, Hc, !not_stopped_for_each_stopped.
  destruct (stop_agents_frame now' s0) as (_ & Hfs & _).
  rewrite Hfs. auto 10.
Qed.

Lemma restart_drops_transports_and_customers_witness :
  wf sample /\
  exists s1, stop 50 50 sample = Ok s1 /\
    transport_agents (run 80 s1) = [] /\
    customer_agents (run 80 s1) = [] /\
    map fst (manager_agents (run 80 s1)) = ["m1"; "m2"].
Proof.
  assert (Hwf : wf sample) by (vm_compute; lia).
  split; [exact Hwf|].
  eexists. split; [vm_compute; reflexivity|].
  match goal with |- transport_agents (run 80 ?s1) = _ /\ _ =>
    assert (Hstop : stop 50 50 sample = Ok s1) by (vm_compute; reflexivity);
    destruct (restart_drops_transports_and_customers sample 50 50 80 s1
                Hwf Hstop) as (Ht & Hc & Hm & _)
  end.
  split; [exact Ht|]. split; [exact Hc|].
  rewrite Hm. vm_compute. reflexivity.
Defined.

(** X11. [clean_controller] answers [done] and leaves a simulator with
    three empty collections, a clock that never started (the elapsed time
    reads 0), the running flag off and the kill flag set; the strategies
    and the manager generator are what they were. *)
Theorem clean_controller_resets now s :
  wf s ->
  let s' := fst (clean_controller now s) in
  snd (clean_controller now s) = "done" /\
  manager_agents s' = [] /\ transport_agents s' = [] /\
  customer_agents s' = [] /\
  never_started s' /\
  (forall later, get_simulation_time later s' = Some 0%Z) /\
  simulation_running s' = false /\
  kill_simulator s' = true /\
  manager_generator s' = manager_generator s.
Proof.
  intros Hwf s'. subst s'. unfold clean_controller. cbn [fst snd].
  pose proof (wf_stop_agents now s Hwf) as Hwf1.
  destruct (clear_agents_contents (stop_agents now s) Hwf1) as (-> & -> & ->).
  destruct (stop_agents_effect now s Hwf) as (_ & _ & _ & Hrun & Hkill).
  assert (Hflags : forall s0,
    never_started (clear_agents s0) /\
    (forall later, get_simulation_time later (clear_agents s0) = Some 0%Z) /\
    simulation_running (clear_agents s0) = simulation_running s0 /\
    kill_simulator (clear_agents s0) = kill_simulator s0 /\
    manager_generator (clear_agents s0) = manager_generator s0).
  { intros s0. destruct s0. repeat split. }
  destruct (Hflags (stop_agents now s)) as (Hn & Hz & -> & -> & ->).
  destruct (stop_agents_frame now s) as (_ & _ & Hgen).
  rewrite Hrun, Hkill, Hgen. auto 10.
Qed.

Lemma clean_controller_resets_witness :
  wf sample /\
  transport_agents (fst (clean_controller 70 sample)) = [] /\
  kill_simulator (fst (clean_controller 70 sample)) = true.
Proof.
  assert (Hwf : wf sample) by (vm_compute; lia).
  split; [exact Hwf|].
  destruct (clean_controller_resets 70 sample Hwf)
    as (_ & _ & Ht & _ & _ & _ & _ & Hkill & _).
  split; [exact Ht | exact Hkill].
Defined.

(** ** When a simulation counts as finished *)

(** X12. [is_simulation_finished] returns on a state with a consistent
    clock, and it answers true exactly when a maximum time is configured
    and either the elapsed time exceeds it or there is at least one
    customer and every customer is at its destination.  Without a
    configured maximum time the answer is false, wherever the customers
    are. *)
Theorem simulation_finished_iff now s :
  clock_ok s ->
  exists elapsed answer,
    get_simulation_time now s = Some elapsed /\
    is_simulation_finished now s = Ok answer /\
    (answer = true <->
     exists max, max_time s = Some max /\
       ((max < elapsed)%Z \/
        (customer_agents s <> [] /\
         forall customer, customer ∈ values (customer_agents s) ->
                          in_destination customer = true))).
Proof.
  intros Hok.
  destruct (get_simulation_time_is_Some now s Hok) as [elapsed He].
  unfold is_simulation_finished, time_is_out, is_simulation_finish.
  rewrite He.
  destruct (max_time s) as [max|].
  - destruct (customer_agents s) as [|c cs] eqn:Hc.
    + exists elapsed, ((max <? elapsed)%Z || false).
      split; [reflexivity|]. split; [reflexivity|].
      rewrite orb_false_r, Z.ltb_lt. split.
      * intros Hout. exists max. auto.
      * intros (max' & [= <-] & [Hout|[Hne _]]); [exact Hout | congruence].
    + exists elapsed,
        ((max <? elapsed)%Z || forallb in_destination (values (c :: cs))).
      split; [reflexivity|]. split; [reflexivity|].
      rewrite orb_true_iff, Z.ltb_lt, forallb_forall. split.
      * intros [Hout|Hall]; exists max; (split; [reflexivity|]);
          [left; exact Hout|].
        right. split; [discriminate|].
        intros customer Hin. apply Hall, list_elem_of_In, Hin.
      * intros (max' & [= <-] & [Hout|[_ Hall]]); [left; exact Hout|].
        right. intros customer Hin. apply Hall, list_elem_of_In, Hin.
  - exists elapsed, false. split; [reflexivity|]. split; [reflexivity|].
    split; [discriminate|]. intros (max & Hmax & _). discriminate.
Qed.

Lemma simulation_finished_iff_witness :
  let s := add_customer
             {| name := "c1"; jid := "c1@localhost"; stopped := false;
                strategies := []; waiting_time := 3; total_time := Some 9%Z;
                in_destination := true |}
             (init "fm.Strategy" "tr.Strategy" "cu.Strategy" None) in
  clock_ok s /\ is_simulation_finished 10 s = Ok false.
Proof.
  intros s.
  assert (Hok : clock_ok s) by (intros H; vm_compute in H; discriminate H).
  split; [exact Hok|].
  destruct (simulation_finished_iff 10 s Hok)
    as (elapsed & answer & _ & Hfin & Hiff).
  rewrite Hfin. f_equal.
  destruct answer; [|reflexivity].
  destruct (proj1 Hiff eq_refl) as (max & Hmax & _). discriminate Hmax.
Defined.

(** ** The kill flag and the running flag *)

(** X13. In every state the simulator can reach, a running simulation has
    its kill flag clear: [stop_agents] is the only operation that sets
    the flag and it turns the running flag off, and a start from the
    stopped state clears it. *)
Theorem running_implies_kill_clear s :
  reachable s -> simulation_running s = true -> kill_simulator s = false.
Proof.
  induction 1 as [|s s' _ IH Hstep]; [discriminate|].
  destruct Hstep.
  - intros _. destruct (run_flags now s) as (_ & -> & _).
    destruct (simulation_running s); [apply IH|]; reflexivity.
  - destruct (stop_inv _ _ _ _ H) as (elapsed & _ & ->).
    destruct (stop_agents_frame now' (with_clock (Some elapsed)
                (simulation_init_time s) s)) as (-> & _).
    discriminate.
  - destruct (stop_agents_frame now s) as (-> & _). discriminate.
  - destruct s. exact IH.
  - destruct s. exact IH.
  - destruct s. exact IH.
  - destruct s. exact IH.
  - destruct s. exact IH.
  - unfold manager_assignment in H. injection H as <-.
    destruct s. destruct (negb _); exact IH.
  - unfold next_manager. destruct s as [? ? ? ? ? ? ? ? ? g ? ? ? ?].
    destruct g as [g|]; [|exact IH].
    cbv [manager_generator heap manager_agents_ref].
    destruct (gen_next _ _ _). exact IH.
Qed.

Lemma reachable_running_sample : reachable (run 100 sample).
Proof.
  eapply reachable_step; [exact reachable_sample | apply step_run].
Defined.

Lemma running_implies_kill_clear_witness :
  reachable (run 100 sample) /\
  simulation_running (run 100 sample) = true /\
  kill_simulator (run 100 sample) = false.
Proof.
  assert (Hrun : simulation_running (run 100 sample) = true) by reflexivity.
  split; [exact reachable_running_sample|]. split; [exact Hrun|].
  exact (running_implies_kill_clear _ reachable_running_sample Hrun).
Defined.

(** X14. [stop] never raises in a state the simulator can reach: the
    elapsed time it formats for its log line is never [None]. *)
Theorem stop_returns_when_reachable s now now' :
  reachable s -> exists s', stop now now' s = Ok s'.
Proof.
  intros Hreach.
  destruct (reachable_invariant s Hreach) as [_ Hok].
  destruct (get_simulation_time_is_Some now s Hok) as [elapsed He].
  unfold stop. rewrite He. cbn [simulation_time with_clock]. eauto.
Qed.

Lemma stop_returns_when_reachable_witness :
  reachable (run 100 sample) /\
  exists s', stop 130 130 (run 100 sample) = Ok s'.
Proof.
  split; [exact reachable_running_sample|].
  exact (stop_returns_when_reachable _ 130 130 reachable_running_sample).
Defined.

(** ** Batches *)

(** X15. A batch during which no check finds the kill flag set creates
    exactly the agents asked for, one per check: [number] of them for a
    positive [number], none for a [number] that is zero or negative, in
    which case no check is made either. *)
Theorem batch_without_cancellation kill k number :
  (forall q, (q < Z.to_nat (Z.max number 0))%nat -> kill q = false) ->
  create_agents_batch kill k number =
  (Z.to_nat (Z.max number 0),
   map (mkCreation k) (seq 0 (Z.to_nat (Z.max number 0)))).
Proof.
  intros Hclear.
  destruct (create_agents_batch_spec kill k number) as (Hle & Hlog & Hgo).
  destruct (create_agents_batch kill k number) as [checks created].
  cbn [fst snd] in *.
  assert (Hall : checks = Z.to_nat (Z.max number 0)).
  { destruct (Z.to_nat (Z.max number 0)) as [|n] eqn:En; [lia|].
    assert (n < checks)%nat; [|lia].
    apply Hgo; [lia|]. intros q Hq. apply Hclear. lia. }
  subst checks. rewrite Hlog. f_equal. f_equal.
  apply clear_checks_all. intros q Hq. apply Hclear. lia.
Qed.

Lemma batch_without_cancellation_witness :
  (forall q, (q < Z.to_nat (Z.max 45 0))%nat -> (fun _ : nat => false) q = false) /\
  fst (create_agents_batch (fun _ => false) CustomerAgent 45) = 45%nat /\
  length (snd (create_agents_batch (fun _ => false) CustomerAgent 45)) = 45%nat /\
  create_agents_batch (fun _ => false) CustomerAgent (-3) = (0%nat, []).
Proof.
  assert (H : forall number q, (q < Z.to_nat (Z.max number 0))%nat ->
                        (fun _ : nat => false) q = false) by reflexivity.
  split; [exact (H 45%Z)|].
  rewrite (batch_without_cancellation (fun _ => false) CustomerAgent 45 (H 45%Z)).
  rewrite (batch_without_cancellation (fun _ => false) CustomerAgent (-3) (H (-3)%Z)).
  repeat split.
Defined.

Lemma set_checks_app kill c n m :
  set_checks kill c (n + m) = set_checks kill c n ++ set_checks kill (c + n) m.
Proof. unfold set_checks. rewrite seq_app, filter_app. reflexivity. Qed.

(** Every check found the flag either clear or set. *)
Lemma checks_partition kill n : forall c,
  (length (clear_checks kill c n) + length (set_checks kill c n))%nat = n.
Proof.
  induction n as [|n IH]; intros c; [reflexivity|].
  unfold clear_checks, set_checks in *. simpl seq.
  destruct (kill c) eqn:Hc.
  - rewrite filter_cons_False, filter_cons_True by congruence.
    simpl. rewrite <- plus_n_Sm. f_equal. apply IH.
  - rewrite filter_cons_True, filter_cons_False by congruence.
    simpl. f_equal. apply IH.
Qed.

Lemma set_checks_nil kill n : forall c,
  set_checks kill c n = [] ->
  forall q, (c <= q < c + n)%nat -> kill q = false.
Proof.
  induction n as [|n IH]; intros c Hnil q Hq; [lia|].
  unfold set_checks in *. simpl seq in Hnil.
  destruct (kill c) eqn:Hc.
  - rewrite filter_cons_True in Hnil by exact Hc. discriminate.
  - rewrite filter_cons_False in Hnil by congruence.
    destruct (decide (q = c)) as [->|Hne]; [exact Hc|].
    apply (IH (S c) Hnil). lia.
Qed.

(** A chunk falls short of its size only if one of its checks found the
    flag set. *)
Lemma create_chunk_bound kill k iteration c log :
  let c' := fst (create_chunk kill k iteration c log) in
  (iteration <= length (clear_checks kill c (c' - c))
                + iteration * length (set_checks kill c (c' - c)))%nat.
Proof.
  intros c'.
  destruct (create_chunk_spec kill k iteration c log) as (Hr & _ & Hgo).
  fold c' in Hr, Hgo.
  pose proof (checks_partition kill (c' - c) c) as Hpart.
  destruct (set_checks kill c (c' - c)) as [|q qs] eqn:Hset.
  - simpl in Hpart.
    destruct (decide (c' = c + iteration)%nat) as [|Hshort]; [lia|].
    assert (c' < c')%nat; [|lia].
    apply Hgo; [lia|]. intros q Hq.
    apply (set_checks_nil kill (c' - c) c Hset). lia.
  - simpl length. nia.
Qed.

Lemma create_chunks_bound kill k : forall iterations c log,
  Forall (fun iteration => (iteration <= 20)%nat) iterations ->
  let c' := fst (create_chunks kill k iterations c log) in
  (sum_list iterations <= length (clear_checks kill c (c' - c))
                          + 20 * length (set_checks kill c (c' - c)))%nat.
Proof.
  induction iterations as [|iteration rest IH]; intros c log Hsizes; simpl.
  - lia.
  - inversion Hsizes as [|? ? Hsize Hrest]; subst.
    pose proof (create_chunk_bound kill k iteration c log) as H1.
    destruct (create_chunk_spec kill k iteration c log) as (Hr1 & _ & _).
    destruct (create_chunk kill k iteration c log) as [c1 log1].
    cbn [fst snd] in *.
    specialize (IH c1 log1 Hrest).
    destruct (create_chunks_spec kill k rest c1 log1) as (Hr2 & _ & _).
    destruct (create_chunks kill k rest c1 log1) as [c2 log2].
    cbn [fst snd] in *.
    replace (c2 - c)%nat with ((c1 - c) + (c2 - c1))%nat by lia.
    rewrite clear_checks_app, set_checks_app, !length_app.
    replace (c + (c1 - c))%nat with c1 by lia.
    nia.
Qed.

Lemma batch_iterations_sizes number :
  Forall (fun iteration => (iteration <= 20)%nat) (batch_iterations number).
Proof.
  unfold batch_iterations. apply Forall_app. split.
  - apply Forall_replicate. lia.
  - constructor; [|constructor].
    pose proof (Z.mod_pos_bound (Z.max number 0) 20 ltac:(lia)). lia.
Qed.

(** X16. Cancellation works chunk by chunk.  A check that finds the kill
    flag set ends the chunk it is in and nothing else; creation goes on
    with the next chunk if the flag is clear by then.  So, whatever the
    other threads do to the flag, a batch of [number] agents creates all
    of them but at most 20 for each check that found the flag set. *)
Theorem batch_loses_at_most_a_chunk_per_set_check kill k number :
  let checks := fst (create_agents_batch kill k number) in
  let created := snd (create_agents_batch kill k number) in
  (Z.to_nat (Z.max number 0)
   <= length created + 20 * length (set_checks kill 0 checks))%nat.
Proof.
  intros checks created.
  destruct (create_agents_batch_spec kill k number) as (_ & Hlog & _).
  fold checks created in Hlog.
  pose proof (create_chunks_bound kill k (batch_iterations number) 0 []
                (batch_iterations_sizes number)) as Hbound.
  cbv zeta in Hbound. rewrite sum_batch_iterations, Nat.sub_0_r in Hbound.
  rewrite Hlog, length_map. exact Hbound.
Qed.

(** ** The cursor and the collections it was built on *)

Lemma gen_after_started src (d : dict) p :
  (1 <= p)%nat -> forall h cur cur',
  gen_next h cur (gen_after src d p) = gen_next h cur' (gen_after src d p).
Proof.
  intros Hp h cur cur'. destruct p as [|p']; [lia|].
  rewrite gen_after_S. destruct (S p' <=? length d)%nat; reflexivity.
Qed.

Lemma gen_after_cycling src (d : dict) p :
  (length d < p)%nat -> forall h h' cur,
  gen_next h cur (gen_after src d p) = gen_next h' cur (gen_after src d p).
Proof.
  intros Hp h h' cur. destruct p as [|p']; [lia|].
  rewrite gen_after_S.
  destruct (Nat.leb_spec (S p') (length d)); [lia | reflexivity].
Qed.

(** A cursor that has started goes on by itself: the dict object it
    started on is all it reads, and once that object is exhausted it
    reads nothing. *)
Lemma gen_next_started (h : gmap loc dict) src cur (d : dict) p :
  d <> [] -> (1 <= p)%nat ->
  deref h src = d \/ (length d < p)%nat ->
  gen_next h cur (gen_after src d p) =
  (gen_after src d (S p), turn (map jid (values d)) p).
Proof.
  intros Hne Hp [Hd|Hlate].
  - rewrite (gen_after_started src d p Hp h cur src).
    apply gen_next_after; assumption.
  - rewrite (gen_after_started src d p Hp h cur src).
    rewrite (gen_after_cycling src d p Hlate h (<[src := d]> ∅) src).
    apply gen_next_after; [assumption | apply deref_insert_eq].
Qed.

Lemma next_managers_started (d : dict) src n : forall p s,
  d <> [] -> (1 <= p)%nat ->
  manager_generator s = Some (gen_after src d p) ->
  deref (heap s) src = d \/ (length d < p)%nat ->
  snd (next_managers n s) = map (turn (map jid (values d))) (seq p n).
Proof.
  induction n as [|n IH]; intros p s Hne Hp Hg Hsrc; [reflexivity|].
  simpl. unfold next_manager. rewrite Hg.
  rewrite (gen_next_started _ src _ d p Hne Hp Hsrc).
  set (s1 := with_generator _ s).
  assert (Hsrc1 : deref (heap s1) src = d \/ (length d < S p)%nat)
    by (destruct Hsrc; [left; assumption | right; lia]).
  pose proof (IH (S p) s1 Hne ltac:(lia) eq_refl Hsrc1) as Hout.
  destruct (next_managers n s1) as [s2 rs]. simpl in *.
  f_equal. exact Hout.
Qed.

(** The generator after [n] calls on a collection that does not change. *)
Lemma next_managers_generator (d : dict) n : forall p s,
  d <> [] -> manager_agents s = d ->
  manager_generator s = Some (gen_after (manager_agents_ref s) d p) ->
  exists s0,
    fst (next_managers n s) =
    with_generator (Some (gen_after (manager_agents_ref s) d (p + n))) s0 /\
    heap s0 = heap s /\ next_loc s0 = next_loc s /\
    manager_agents_ref s0 = manager_agents_ref s /\
    transport_agents_ref s0 = transport_agents_ref s /\
    customer_agents_ref s0 = customer_agents_ref s.
Proof.
  induction n as [|n IH]; intros p s Hne Hd Hg.
  - exists s. rewrite Nat.add_0_r. simpl. rewrite <- Hg.
    destruct s. auto 10.
  - simpl. unfold next_manager. rewrite Hg.
    rewrite (gen_next_after _ _ d p Hne Hd).
    set (s1 := with_generator _ s).
    destruct (IH (S p) s1 Hne Hd eq_refl) as (s0 & Hs0 & Hrest).
    destruct (next_managers n s1) as [s2 rs]. simpl in *.
    exists s0. rewrite <- plus_n_Sm. auto.
Qed.

(** The cursor once [manager_assignment] has built it and [j] calls of
    [next] were made on the non-empty collection [manager_agents s]. *)
Lemma cursor_after s j :
  manager_agents s <> [] ->
  exists s1 s0,
    manager_assignment s = Ok s1 /\
    fst (next_managers j s1) =
      with_generator
        (Some (gen_after (manager_agents_ref s) (manager_agents s) j)) s0 /\
    heap s0 = heap s /\ next_loc s0 = next_loc s /\
    manager_agents_ref s0 = manager_agents_ref s /\
    transport_agents_ref s0 = transport_agents_ref s /\
    customer_agents_ref s0 = customer_agents_ref s.
Proof.
  intros Hne. eexists. 
  set (s1 := with_generator (Some GenCreated)
               (if negb (bool_decide (is_Some (manager_generator s)))
                then with_generator None s else s)).
  assert (Hframe : heap s1 = heap s /\ next_loc s1 = next_loc s /\
                   manager_agents_ref s1 = manager_agents_ref s /\
                   transport_agents_ref s1 = transport_agents_ref s /\
                   customer_agents_ref s1 = customer_agents_ref s).
  { unfold s1. destruct s. destruct (negb _); auto. }
  destruct Hframe as (Hh & Hn & Hm & Ht & Hc).
  assert (Hd : manager_agents s1 = manager_agents s).
  { unfold manager_agents. rewrite Hh, Hm. reflexivity. }
  destruct (next_managers_generator (manager_agents s) j 0 s1 Hne Hd)
    as (s0 & Hs0 & Hh0 & Hn0 & Hm0 & Ht0 & Hc0).
  { rewrite Hm. reflexivity. }
  exists s0. split; [reflexivity|]. fold s1.
  rewrite Hm in Hs0. simpl in Hs0.
  rewrite Hs0, Hh0, Hn0, Hm0, Ht0, Hc0. auto 10.
Qed.

(** X17. Once its first pass is over the cursor is a snapshot.  After
    [manager_assignment] on a collection of M managers and M + 1 calls
    of [next], the rotation goes on over those M identities in any
    state that holds this cursor, whatever has become of the
    collections: managers added since are never served, managers
    removed since still are. *)
Theorem cursor_is_a_snapshot s s1 s2 n :
  manager_agents s <> [] ->
  manager_assignment s = Ok s1 ->
  let M := length (manager_agents s) in
  let ids := map jid (values (manager_agents s)) in
  manager_generator s2 = manager_generator (fst (next_managers (S M) s1)) ->
  snd (next_managers n s2) = map (turn ids) (seq (S M) n).
Proof.
  intros Hne Hs1 M ids.
  destruct (cursor_after s (S M) Hne) as (s1' & s0 & Hs1' & Hgen & _).
  rewrite Hs1 in Hs1'. injection Hs1' as <-.
  rewrite Hgen. cbn [manager_generator with_generator]. intros Hg.
  apply (next_managers_started (manager_agents s) (manager_agents_ref s));
    [exact Hne | lia | exact Hg | right; unfold M; lia].
Qed.

Lemma cursor_is_a_snapshot_witness :
  let s1 := with_generator (Some GenCreated) sample in
  let s2 := add_manager (sample_agent "m3" false) (fst (next_managers 3 s1)) in
  manager_agents sample <> [] /\
  manager_assignment sample = Ok s1 /\
  manager_generator s2 = manager_generator (fst (next_managers 3 s1)) /\
  snd (next_managers 2 s2) = [Ok "m2@localhost"; Ok "m1@localhost"].
Proof.
  intros s1 s2.
  assert (Hne : manager_agents sample <> []) by discriminate.
  assert (Hs1 : manager_assignment sample = Ok s1) by (vm_compute; reflexivity).
  assert (Hgen : manager_generator s2
                 = manager_generator (fst (next_managers 3 s1)))
    by (vm_compute; reflexivity).
  split; [exact Hne|]. split; [exact Hs1|]. split; [exact Hgen|].
  transitivity (map (turn (map jid (values (manager_agents sample))))
                  (seq 3 2)).
  - exact (cursor_is_a_snapshot sample s1 s2 2 Hne Hs1 Hgen).
  - vm_compute. reflexivity.
Defined.

Lemma dict_set_length_new k v (d : dict) :
  dict_get k d = None -> length (dict_set k v d) = S (length d).
Proof.
  intros Hnew.
  rewrite <- (length_map fst (dict_set k v d)), dict_set_keys, Hnew.
  rewrite length_app, length_map. simpl. lia.
Qed.

(** X18. A manager that joins while the cursor is on its first pass
    breaks the cursor.  After [manager_assignment] on M managers and j
    calls of [next], 1 <= j <= M, [add_manager] with a new name makes
    the next call raise [RuntimeError], the dict having changed size
    under its iterator, and every call after that raise
    [StopIteration]. *)
Theorem cursor_breaks_when_managers_grow s s1 j agent n :
  manager_agents s <> [] ->
  manager_assignment s = Ok s1 ->
  (1 <= j <= length (manager_agents s))%nat ->
  dict_get (name agent) (manager_agents s) = None ->
  let s2 := add_manager agent (fst (next_managers j s1)) in
  snd (next_manager s2) = Err RuntimeError /\
  snd (next_managers n (fst (next_manager s2))) =
    replicate n (Err StopIteration).
Proof.
  intros Hne Hs1 Hj Hnew s2.
  destruct (cursor_after s j Hne) as (s1' & s0 & Hs1' & Hgen & Hh & _ & Hm & _).
  rewrite Hs1 in Hs1'. injection Hs1' as <-.
  assert (Hstep : next_manager s2 =
                  (with_generator (Some GenFinished) s2, Err RuntimeError)).
  { assert (Hd0 : forall g, manager_agents (with_generator g s0)
                            = manager_agents s).
    { intros g. unfold manager_agents.
      cbn [with_generator heap manager_agents_ref]. rewrite Hh, Hm.
      reflexivity. }
    unfold s2. rewrite Hgen.
    destruct j as [|j']; [lia|]. rewrite gen_after_S.
    destruct (Nat.leb_spec (S j') (length (manager_agents s))) as [_|]; [|lia].
    unfold next_manager, add_manager. rewrite Hd0.
    cbn [manager_generator with_generator store with_heap heap
         manager_agents_ref next_loc gen_next].
    unfold first_pass. rewrite Hm, deref_insert_eq.
    rewrite (dict_set_length_new _ _ _ Hnew).
    destruct (Nat.eqb_spec (S (length (manager_agents s)))
                (length (manager_agents s))); [lia|].
    reflexivity. }
  rewrite Hstep. split; [reflexivity|].
  apply next_managers_finished. reflexivity.
Qed.

Lemma cursor_breaks_when_managers_grow_witness :
  let s1 := with_generator (Some GenCreated) sample in
  manager_agents sample <> [] /\
  manager_assignment sample = Ok s1 /\
  (1 <= 1 <= length (manager_agents sample))%nat /\
  dict_get (name (sample_agent "m3" false)) (manager_agents sample) = None /\
  snd (next_manager (add_manager (sample_agent "m3" false)
                       (fst (next_managers 1 s1)))) = Err RuntimeError.
Proof.
  intros s1.
  assert (Hne : manager_agents sample <> []) by discriminate.
  assert (Hs1 : manager_assignment sample = Ok s1) by (vm_compute; reflexivity).
  assert (Hj : (1 <= 1 <= length (manager_agents sample))%nat)
    by (vm_compute; lia).
  assert (Hnew : dict_get (name (sample_agent "m3" false))
                   (manager_agents sample) = None) by (vm_compute; reflexivity).
  split; [exact Hne|]. split; [exact Hs1|]. split; [exact Hj|].
  split; [exact Hnew|].
  exact (proj1 (cursor_breaks_when_managers_grow sample s1 1
                  (sample_agent "m3" false) 0 Hne Hs1 Hj Hnew)).
Defined.

(** X19. A cursor that has started survives the clearing of the
    collections.  [clear_agents] and [clear_stopped_agents] bind the
    names to new dict objects and leave the old ones as they are, so a
    cursor that made at least one call of [next] goes on rotating over
    the managers it started on: after [clear_agents] the manager
    collection is empty and the cursor still serves every former
    manager, after [clear_stopped_agents] it still serves the stopped
    ones. *)
Theorem cursor_survives_clear s s1 j n :
  wf s ->
  manager_agents s <> [] ->
  manager_assignment s = Ok s1 ->
  (1 <= j)%nat ->
  let ids := map jid (values (manager_agents s)) in
  let s2 := fst (next_managers j s1) in
  manager_agents (clear_agents s2) = [] /\
  snd (next_managers n (clear_agents s2)) = map (turn ids) (seq j n) /\
  manager_agents (clear_stopped_agents s2) = not_stopped (manager_agents s) /\
  snd (next_managers n (clear_stopped_agents s2)) = map (turn ids) (seq j n).
Proof.
  intros Hwf Hne Hs1 Hj ids s2.
  destruct (cursor_after s j Hne)
    as (s1' & s0 & Hs1' & Hgen & Hh & Hn & Hm & Ht & Hc).
  rewrite Hs1 in Hs1'. injection Hs1' as <-.
  assert (Hwf2 : wf s2).
  { unfold s2. rewrite Hgen. unfold wf.
    cbn [with_generator manager_agents_ref transport_agents_ref
         customer_agents_ref next_loc].
    rewrite Hn, Hm, Ht, Hc. exact Hwf. }
  assert (Hd2 : manager_agents s2 = manager_agents s).
  { unfold s2. rewrite Hgen. unfold manager_agents.
    cbn [with_generator heap manager_agents_ref]. rewrite Hh, Hm.
    reflexivity. }
  destruct Hwf as (_ & _ & _ & Hlt & _).
  destruct (clear_agents_contents s2 Hwf2) as (Hcm & _).
  destruct (clear_stopped_agents_contents s2 Hwf2) as (Hsm & _).
  rewrite Hcm, Hsm, Hd2.
  split; [reflexivity|]. split; [|split; [reflexivity|]].
  - apply (next_managers_started (manager_agents s) (manager_agents_ref s));
      [exact Hne | exact Hj | |].
    + unfold s2. rewrite Hgen. destruct s0. reflexivity.
    + left. unfold s2. rewrite Hgen. destruct s0.
      cbn [heap next_loc manager_agents_ref] in *. subst.
      unfold_sim. heap_lookup. reflexivity.
  - apply (next_managers_started (manager_agents s) (manager_agents_ref s));
      [exact Hne | exact Hj | |].
    + unfold s2. rewrite Hgen. destruct s0. reflexivity.
    + left. unfold s2. rewrite Hgen. destruct s0.
      cbn [heap next_loc manager_agents_ref] in *. subst.
      unfold_sim. heap_lookup. reflexivity.
Qed.

Lemma cursor_survives_clear_witness :
  let s1 := with_generator (Some GenCreated) sample in
  wf sample /\ manager_agents sample <> [] /\
  manager_assignment sample = Ok s1 /\ (1 <= 1)%nat /\
  manager_agents (clear_agents (fst (next_managers 1 s1))) = [] /\
  snd (next_managers 2 (clear_agents (fst (next_managers 1 s1)))) =
    [Ok "m2@localhost"; Ok "m1@localhost"].
Proof.
  intros s1.
  assert (Hwf : wf sample) by (vm_compute; lia).
  assert (Hne : manager_agents sample <> []) by discriminate.
  assert (Hs1 : manager_assignment sample = Ok s1) by (vm_compute; reflexivity).
  assert (Hj : (1 <= 1)%nat) by lia.
  destruct (cursor_survives_clear sample s1 1 2 Hwf Hne Hs1 Hj)
    as (Hempty & Hturns & _).
  split; [exact Hwf|]. split; [exact Hne|]. split; [exact Hs1|].
  split; [exact Hj|]. split; [exact Hempty|].
  transitivity (map (turn (map jid (values (manager_agents sample))))
                  (seq 1 2)).
  - exact Hturns.
  - vm_compute. reflexivity.
Defined.

(** ** Creating agents *)

Lemma turn_ok (ids : list string) p :
  ids <> [] -> exists manager, turn ids p = Ok manager /\ manager ∈ ids.
Proof.
  intros Hne. unfold turn.
  assert (Hlt : (p mod length ids < length ids)%nat).
  { apply Nat.mod_upper_bound. destruct ids; simpl; congruence. }
  destruct (lookup_lt_is_Some_2 ids _ Hlt) as [manager Hm].
  rewrite Hm. exists manager. split; [reflexivity|].
  eapply list_elem_of_lookup_2, Hm.
Qed.

Lemma dict_set_twice k v1 v2 (d : dict) :
  dict_set k v2 (dict_set k v1 d) = dict_set k v2 d.
Proof.
  induction d as [|[k0 v0] d IH]; simpl.
  - rewrite decide_True by reflexivity. reflexivity.
  - destruct (decide (k = k0)) as [->|Hne]; simpl.
    + rewrite decide_True by reflexivity. reflexivity.
    + rewrite decide_False by exact Hne. rewrite IH. reflexivity.
Qed.

Lemma add_manager_frame agent s :
  (wf s -> wf (add_manager agent s)) /\
  simulation_running (add_manager agent s) = simulation_running s /\
  manager_generator (add_manager agent s) = manager_generator s /\
  manager_agents_ref (add_manager agent s) = manager_agents_ref s.
Proof. destruct s. auto. Qed.

Lemma add_transport_frame agent s :
  (wf s -> wf (add_transport agent s)) /\
  simulation_running (add_transport agent s) = simulation_running s /\
  manager_generator (add_transport agent s) = manager_generator s /\
  manager_agents_ref (add_transport agent s) = manager_agents_ref s.
Proof. destruct s. auto. Qed.

Lemma add_customer_frame agent s :
  (wf s -> wf (add_customer agent s)) /\
  simulation_running (add_customer agent s) = simulation_running s /\
  manager_generator (add_customer agent s) = manager_generator s /\
  manager_agents_ref (add_customer agent s) = manager_agents_ref s.
Proof. destruct s. auto. Qed.

(** One case of [store_created_contents]: [contents] and [frame] are the
    two lemmas about [add], the function that stores an agent of the
    class. *)
Ltac store_created_case add contents frame agent s Hwf :=
  let Hwf1 := fresh "Hwf1" in
  let Hrun1 := fresh "Hrun1" in
  let Hgen1 := fresh "Hgen1" in
  let Href1 := fresh "Href1" in
  destruct (frame agent s) as (Hwf1 & Hrun1 & Hgen1 & Href1);
  specialize (Hwf1 Hwf);
  destruct (contents agent s Hwf) as (? & ? & ?);
  rewrite Hrun1;
  destruct (simulation_running s);
  [ match goal with
    | |- context [add_strategy ?st agent] =>
        let Hwf2 := fresh "Hwf2" in
        let Hrun2 := fresh "Hrun2" in
        let Hgen2 := fresh "Hgen2" in
        let Href2 := fresh "Href2" in
        destruct (frame (add_strategy st agent) (add agent s))
          as (Hwf2 & Hrun2 & Hgen2 & Href2);
        destruct (contents (add_strategy st agent) (add agent s) Hwf1)
          as (? & ? & ?);
        split; [exact (Hwf2 Hwf1)|];
        split; [simpl name in *; rewrite <- dict_set_twice with (v1 := agent);
                congruence|];
        split; [intros [] Hne; cbn [collection]; congruence|];
        split; [congruence|]; split; congruence
    end
  | split; [exact Hwf1|];
    split; [congruence|];
    split; [intros [] Hne; cbn [collection]; congruence|];
    split; [congruence|]; split; congruence ].

(** The state once [agent] is stored by the [add] function of its class
    and, the simulation running, given the strategy of its class. *)
Lemma store_created_contents cls agent s :
  wf s ->
  let add := match cls with
             | FleetManagerAgent => add_manager
             | TransportAgent => add_transport
             | CustomerAgent => add_customer
             end in
  let s1 := add agent s in
  let s2 := if simulation_running s1
            then add (add_strategy (strategy_of cls s) agent) s1 else s1 in
  wf s2 /\
  collection cls s2 =
    dict_set (name agent)
      (if simulation_running s
       then add_strategy (strategy_of cls s) agent else agent)
      (collection cls s) /\
  (forall cls', cls' <> cls -> collection cls' s2 = collection cls' s) /\
  simulation_running s2 = simulation_running s /\
  manager_generator s2 = manager_generator s /\
  manager_agents_ref s2 = manager_agents_ref s.
Proof.
  intros Hwf. destruct cls; cbv zeta; cbn [collection strategy_of].
  - store_created_case add_manager add_manager_contents add_manager_frame agent s Hwf.
  - store_created_case add_transport add_transport_contents add_transport_frame agent s Hwf.
  - store_created_case add_customer add_customer_contents add_customer_frame agent s Hwf.
Qed.

(** [next_manager] touches the generator and nothing else. *)
Lemma next_manager_frame s :
  exists g, fst (next_manager s) = with_generator g s.
Proof.
  unfold next_manager. destruct (manager_generator s) as [g|] eqn:Hg.
  - destruct (gen_next _ _ g) as [g' r]. eauto.
  - exists None. destruct s. simpl in *. subst. reflexivity.
Qed.

(** The creation of an agent, when nothing raises. *)
Lemma async_create_agent_ok cls agent s given :
  wf s ->
  snd (async_create_agent cls agent (Ok tt) s) = Ok given ->
  let s' := fst (async_create_agent cls agent (Ok tt) s) in
  wf s' /\
  collection cls s' =
    dict_set (name agent)
      (if simulation_running s
       then add_strategy (strategy_of cls s) agent else agent)
      (collection cls s) /\
  (forall cls', cls' <> cls -> collection cls' s' = collection cls' s) /\
  simulation_running s' = simulation_running s /\
  manager_agents_ref s' = manager_agents_ref s /\
  manager_generator s' =
    match cls with
    | TransportAgent => manager_generator (fst (next_manager s))
    | _ => manager_generator s
    end.
Proof.
  intros Hwf. unfold async_create_agent.
  destruct cls.
  - intros _. cbv zeta. cbn [fst snd].
    destruct (store_created_contents FleetManagerAgent agent s Hwf)
      as (H1 & H2 & H3 & H4 & H5 & H6).
    auto 10.
  - destruct (next_manager_frame s) as [g Hg].
    destruct (next_manager s) as [s1 r]. cbn [fst] in Hg. subst s1.
    destruct (given_manager r) as [given'|e]; [|discriminate].
    intros _. cbv zeta. cbn [fst snd].
    assert (Hwf1 : wf (with_generator g s)) by (destruct s; exact Hwf).
    destruct (store_created_contents TransportAgent agent
                (with_generator g s) Hwf1)
      as (H1 & H2 & H3 & H4 & H5 & H6).
    split; [exact H1|].
    split; [exact H2|]. split; [exact H3|]. split; [exact H4|].
    split; [exact H6 | exact H5].
  - intros _. cbv zeta. cbn [fst snd].
    destruct (store_created_contents CustomerAgent agent s Hwf)
      as (H1 & H2 & H3 & H4 & H5 & H6).
    auto 10.
Qed.

(** X20. An agent created while the simulation runs is stored with the
    strategy of its class already added to it; an agent created while
    the simulation does not run is stored as it is.  Either way it is
    stored under its name in the collection of its class, and no agent
    of another collection is touched. *)
Theorem created_agent_is_stored_with_strategy cls agent s given :
  wf s ->
  snd (async_create_agent cls agent (Ok tt) s) = Ok given ->
  let s' := fst (async_create_agent cls agent (Ok tt) s) in
  collection cls s' =
    dict_set (name agent)
      (if simulation_running s
       then add_strategy (strategy_of cls s) agent else agent)
      (collection cls s) /\
  (forall cls', cls' <> cls -> collection cls' s' = collection cls' s) /\
  simulation_running s' = simulation_running s.
Proof.
  intros Hwf Hok.
  destruct (async_create_agent_ok cls agent s given Hwf Hok)
    as (_ & H1 & H2 & H3 & _).
  auto.
Qed.

Lemma created_agent_is_stored_with_strategy_witness :
  let s := run 100 sample in
  let agent := sample_agent "c2" false in
  wf s /\
  snd (async_create_agent CustomerAgent agent (Ok tt) s) = Ok (FleetManagers 3) /\
  dict_get "c2" (collection CustomerAgent
                   (fst (async_create_agent CustomerAgent agent (Ok tt) s)))
    = Some (add_strategy "cu.Strategy" agent).
Proof.
  intros s agent.
  assert (Hwf : wf s) by (vm_compute; lia).
  assert (Hok : snd (async_create_agent CustomerAgent agent (Ok tt) s)
                = Ok (FleetManagers 3)) by (vm_compute; reflexivity).
  split; [exact Hwf|]. split; [exact Hok|].
  destruct (created_agent_is_stored_with_strategy CustomerAgent agent s _
              Hwf Hok) as (Hstored & _).
  rewrite Hstored, dict_get_set. reflexivity.
Defined.

(** One transport created while the cursor is [p] calls into its rotation
    over the managers [d]. *)
Lemma create_transport_step (d : dict) agent p s :
  d <> [] -> wf s -> manager_agents s = d ->
  manager_generator s = Some (gen_after (manager_agents_ref s) d p) ->
  let r := async_create_agent TransportAgent agent (Ok tt) s in
  snd r = given_manager (turn (map jid (values d)) p) /\
  wf (fst r) /\ manager_agents (fst r) = d /\
  manager_agents_ref (fst r) = manager_agents_ref s /\
  manager_generator (fst r) =
    Some (gen_after (manager_agents_ref s) d (S p)).
Proof.
  intros Hne Hwf Hd Hg r.
  assert (Hnext : next_manager s =
    (with_generator (Some (gen_after (manager_agents_ref s) d (S p))) s,
     turn (map jid (values d)) p)).
  { unfold next_manager. rewrite Hg, (gen_next_after _ _ d p Hne Hd).
    reflexivity. }
  destruct (turn_ok (map jid (values d)) p) as (manager & Hturn & _).
  { destruct d; [congruence | discriminate]. }
  assert (Hsnd : snd r = given_manager (turn (map jid (values d)) p)).
  { unfold r, async_create_agent. rewrite Hnext, Hturn. reflexivity. }
  split; [exact Hsnd|].
  assert (Hok : snd r = Ok (FleetManager manager))
    by (rewrite Hsnd, Hturn; reflexivity).
  destruct (async_create_agent_ok TransportAgent agent s _ Hwf Hok)
    as (Hwf' & _ & Hothers & _ & Href & Hgen).
  fold r in Hwf', Hothers, Href, Hgen.
  split; [exact Hwf'|]. split; [|split; [exact Href|]].
  - rewrite <- Hd.
    exact (Hothers FleetManagerAgent ltac:(discriminate)).
  - rewrite Hgen, Hnext. reflexivity.
Qed.

Lemma create_transports_turns (d : dict) agents : forall p s,
  d <> [] -> wf s -> manager_agents s = d ->
  manager_generator s = Some (gen_after (manager_agents_ref s) d p) ->
  snd (create_transports agents s) =
    map (fun k => given_manager (turn (map jid (values d)) k))
      (seq p (length agents)) /\
  manager_agents (fst (create_transports agents s)) = d.
Proof.
  induction agents as [|agent agents IH]; intros p s Hne Hwf Hd Hg.
  - split; [reflexivity | exact Hd].
  - simpl.
    destruct (create_transport_step d agent p s Hne Hwf Hd Hg)
      as (Hr & Hwf' & Hd' & Href & Hg').
    destruct (async_create_agent TransportAgent agent (Ok tt) s) as [s1 r].
    cbn [fst snd] in *. rewrite <- Href in Hg'.
    destruct (IH (S p) s1 Hne Hwf' Hd' Hg') as [Hout Hcoll].
    destruct (create_transports agents s1) as [s2 rs]. cbn [fst snd] in *.
    split; [rewrite Hr, Hout; reflexivity | exact Hcoll].
Qed.

(** X21. Transports get their managers in turn.  After
    [manager_assignment] on a non-empty collection of managers, the
    transports created one after the other are each given one manager
    identity, the first transport the first manager, the next the
    second, and so on round the collection; every creation returns
    normally, and the manager collection is not touched. *)
Theorem transports_get_managers_in_turn s s1 agents :
  wf s ->
  manager_agents s <> [] ->
  manager_assignment s = Ok s1 ->
  let ids := map jid (values (manager_agents s)) in
  snd (create_transports agents s1) =
    map (fun k => given_manager (turn ids k)) (seq 0 (length agents)) /\
  Forall (fun r => exists manager,
            r = Ok (FleetManager manager) /\ manager ∈ ids)
    (snd (create_transports agents s1)) /\
  manager_agents (fst (create_transports agents s1)) = manager_agents s.
Proof.
  intros Hwf Hne Hs1 ids.
  unfold manager_assignment in Hs1. injection Hs1 as <-.
  set (s1 := with_generator (Some GenCreated) _).
  assert (Hframe : wf s1 /\ manager_agents s1 = manager_agents s /\
                   manager_agents_ref s1 = manager_agents_ref s).
  { unfold s1. destruct s. destruct (negb _); auto. }
  destruct Hframe as (Hwf1 & Hd1 & Href1).
  destruct (create_transports_turns (manager_agents s) agents 0 s1
              Hne Hwf1 Hd1 eq_refl) as [Hout Hcoll].
  split; [exact Hout|]. split; [|exact Hcoll].
  rewrite Hout. apply Forall_fmap, Forall_forall. intros k _. simpl.
  destruct (turn_ok ids k) as (manager & Hturn & Hin).
  { unfold ids. destruct (manager_agents s); [congruence | discriminate]. }
  fold ids. rewrite Hturn. exists manager. auto.
Qed.

Lemma transports_get_managers_in_turn_witness :
  let s1 := with_generator (Some GenCreated) sample in
  let agents := [sample_agent "t3" false; sample_agent "t4" false;
                 sample_agent "t5" false] in
  wf sample /\ manager_agents sample <> [] /\
  manager_assignment sample = Ok s1 /\
  snd (create_transports agents s1) =
    [Ok (FleetManager "m1@localhost"); Ok (FleetManager "m2@localhost");
     Ok (FleetManager "m1@localhost")].
Proof.
  intros s1 agents.
  assert (Hwf : wf sample) by (vm_compute; lia).
  assert (Hne : manager_agents sample <> []) by discriminate.
  assert (Hs1 : manager_assignment sample = Ok s1) by (vm_compute; reflexivity).
  split; [exact Hwf|]. split; [exact Hne|]. split; [exact Hs1|].
  transitivity
    (map (fun k => given_manager
                     (turn (map jid (values (manager_agents sample))) k))
       (seq 0 (length agents))).
  - exact (proj1 (transports_get_managers_in_turn sample s1 agents
                    Hwf Hne Hs1)).
  - vm_compute. reflexivity.
Defined.

Lemma manager_assignment_frame s s1 :
  manager_assignment s = Ok s1 ->
  manager_generator s1 = Some GenCreated /\
  (wf s -> wf s1) /\
  manager_agents s1 = manager_agents s /\
  manager_agents_ref s1 = manager_agents_ref s /\
  transport_agents s1 = transport_agents s.
Proof.
  unfold manager_assignment. intros [= <-].
  destruct s. destruct (negb _); auto.
Qed.

(** X22. Without a manager no transport can be created, and a cursor
    that failed stays failed.  If the manager collection is empty when
    the first transport is created after [manager_assignment], the
    creation raises [RuntimeError] and stores nothing; and from then on
    every creation of a transport raises and stores nothing in any
    state that holds this cursor, managers having joined or not, until
    [manager_assignment] is called again. *)
Theorem transport_without_manager_is_not_created s s1 agent startup :
  manager_agents s = [] ->
  manager_assignment s = Ok s1 ->
  let r := async_create_agent TransportAgent agent startup s1 in
  snd r = Err RuntimeError /\
  transport_agents (fst r) = transport_agents s /\
  forall s2 agent' startup',
    manager_generator s2 = manager_generator (fst r) ->
    snd (async_create_agent TransportAgent agent' startup' s2)
      = Err RuntimeError /\
    transport_agents (fst (async_create_agent TransportAgent agent' startup' s2))
      = transport_agents s2.
Proof.
  intros Hempty Hs1 r.
  destruct (manager_assignment_frame s s1 Hs1) as (Hg1 & _ & Hd1 & _).
  assert (Hstep : next_manager s1 =
                  (with_generator (Some GenFinished) s1, Err StopIteration)).
  { unfold next_manager. rewrite Hg1. cbn [gen_next]. unfold first_pass.
    fold (manager_agents s1). rewrite Hd1, Hempty. reflexivity. }
  assert (Hfail : snd (next_manager s1) = Err StopIteration)
    by (rewrite Hstep; reflexivity).
  assert (Hfin : manager_generator (fst (next_manager s1)) = Some GenFinished)
    by (rewrite Hstep; reflexivity).
  destruct (next_manager_frame s1) as [g Hg].
  assert (Hfst : fst r = fst (next_manager s1)).
  { unfold r, async_create_agent.
    destruct (next_manager s1) as [s' res]. cbn [snd] in Hfail. subst res.
    reflexivity. }
  assert (Hsnd : snd r = Err RuntimeError).
  { unfold r, async_create_agent.
    destruct (next_manager s1) as [s' res]. cbn [snd] in Hfail. subst res.
    reflexivity. }
  split; [exact Hsnd|]. split.
  - rewrite Hfst, Hg.
    unfold manager_assignment in Hs1. injection Hs1 as <-.
    destruct s. destruct (negb _); reflexivity.
  - intros s2 agent' startup' Hg2. rewrite Hfst, Hfin in Hg2.
    unfold async_create_agent, next_manager. rewrite Hg2.
    cbn [gen_next given_manager fst snd]. split; [reflexivity|].
    destruct s2. reflexivity.
Qed.

Lemma transport_without_manager_is_not_created_witness :
  let s := init "fm.Strategy" "tr.Strategy" "cu.Strategy" None in
  let s1 := with_generator (Some GenCreated) s in
  manager_agents s = [] /\ manager_assignment s = Ok s1 /\
  snd (async_create_agent TransportAgent (sample_agent "t1" false) (Ok tt) s1)
    = Err RuntimeError.
Proof.
  intros s s1.
  assert (Hempty : manager_agents s = []) by reflexivity.
  assert (Hs1 : manager_assignment s = Ok s1) by reflexivity.
  split; [exact Hempty|]. split; [exact Hs1|].
  exact (proj1 (transport_without_manager_is_not_created s s1
                  (sample_agent "t1" false) (Ok tt) Hempty Hs1)).
Defined.

(** X23. A transport takes its turn of the rotation before it is
    started.  If the startup of a transport fails, the creation raises
    what the startup raised and the transport is not stored, but the
    manager it would have had is passed over: the transport created
    next is given the manager after that one. *)
Theorem failed_startup_consumes_a_turn s s1 agent agent' e :
  wf s ->
  manager_agents s <> [] ->
  manager_assignment s = Ok s1 ->
  let ids := map jid (values (manager_agents s)) in
  let r := async_create_agent TransportAgent agent (Err e) s1 in
  snd r = Err e /\
  transport_agents (fst r) = transport_agents s /\
  snd (async_create_agent TransportAgent agent' (Ok tt) (fst r)) =
    given_manager (turn ids 1).
Proof.
  intros Hwf Hne Hs1 ids r.
  destruct (manager_assignment_frame s s1 Hs1)
    as (Hg1 & Hwf1 & Hd1 & Href1 & Ht1).
  specialize (Hwf1 Hwf).
  assert (Hnext : next_manager s1 =
    (with_generator
       (Some (gen_after (manager_agents_ref s1) (manager_agents s) 1)) s1,
     turn ids 0)).
  { unfold next_manager. rewrite Hg1.
    change GenCreated
      with (gen_after (manager_agents_ref s1) (manager_agents s) 0).
    rewrite (gen_next_after _ _ (manager_agents s) 0 Hne Hd1). reflexivity. }
  destruct (turn_ok ids 0) as (manager & Hturn & _).
  { unfold ids. destruct (manager_agents s); [congruence | discriminate]. }
  assert (Hr : r = (fst (next_manager s1), Err e)).
  { unfold r, async_create_agent. rewrite Hnext, Hturn. reflexivity. }
  rewrite Hr, Hnext. cbn [fst snd].
  split; [reflexivity|]. split.
  - rewrite <- Ht1. destruct s1. reflexivity.
  - set (s2 := with_generator _ s1).
    assert (Hwf2 : wf s2) by (destruct s1; exact Hwf1).
    assert (Hd2 : manager_agents s2 = manager_agents s)
      by (rewrite <- Hd1; destruct s1; reflexivity).
    exact (proj1 (create_transport_step (manager_agents s) agent' 1 s2
                    Hne Hwf2 Hd2 eq_refl)).
Qed.

Lemma failed_startup_consumes_a_turn_witness :
  let s1 := with_generator (Some GenCreated) sample in
  wf sample /\ manager_agents sample <> [] /\
  manager_assignment sample = Ok s1 /\
  snd (async_create_agent TransportAgent (sample_agent "t4" false) (Ok tt)
         (fst (async_create_agent TransportAgent (sample_agent "t3" false)
                 (Err TransportError) s1)))
    = Ok (FleetManager "m2@localhost").
Proof.
  intros s1.
  assert (Hwf : wf sample) by (vm_compute; lia).
  assert (Hne : manager_agents sample <> []) by discriminate.
  assert (Hs1 : manager_assignment sample = Ok s1) by (vm_compute; reflexivity).
  split; [exact Hwf|]. split; [exact Hne|]. split; [exact Hs1|].
  destruct (failed_startup_consumes_a_turn sample s1
              (sample_agent "t3" false) (sample_agent "t4" false)
              TransportError Hwf Hne Hs1) as (_ & _ & Hnext).
  transitivity
    (given_manager (turn (map jid (values (manager_agents sample))) 1)).
  - exact Hnext.
  - vm_compute. reflexivity.
Defined.

End Lifecycle.
